(** * Ladon: the access-control decision core (ladon.go)

    A shallow embedding of [lazyInit], [IsAllowed], [DoPoliciesAllow] and
    [passesConditions] of package ladon, and the properties of the decision
    algorithm.

    Conventions of the embedding.
    - A Go [error] result is an [option error]; [None] is Go's [nil].
    - Calls into collaborators (Matcher, Condition, Policy.AllowAccess,
      AuditLogger, Metric, Manager) are recorded, in program order, in a
      trace of [Event]s; a metric call records whether it was started by a
      [go] statement or called in place.
    - A method call on a nil interface value is a run-time panic: [Panic].
    - The package-level variables ([lazyInitOnce] and the three defaults)
      are the record [Globals], threaded through the entry points.
    - Matcher and Condition implementations are pure functions of their
      arguments (spec section 3: both are stateless capabilities). *)

From stdpp Require Import base option list strings gmap.

(** ** Data model *)

(** A value stored in a request context ([interface{}] in Go). [VNil] is the
    nil interface value, which is also what reading a map at an absent key
    gives. *)
Inductive Value :=
  | VNil
  | VString (s : string)
  | VInt (n : Z)
  | VBool (b : bool).

#[global] Instance Value_inhabited : Inhabited Value := populate VNil.

(** Modelled from the spec: the sentinel errors [ErrRequestDenied] and
    [ErrRequestForcefullyDenied] are package variables declared outside
    ladon.go (spec section 7).  [ErrOther] stands for any other error value
    (a matcher's or a manager's), and [WithStack e] for the value
    [errors.WithStack] builds around a non-nil [e]. *)
Inductive error :=
  | ErrRequestDenied
  | ErrRequestForcefullyDenied
  | ErrOther (msg : string)
  | WithStack (cause : error).

(** [errors.WithStack]: nil stays nil, anything else is wrapped. *)
Definition errors_WithStack (err : option error) : option error :=
  WithStack <$> err.

(** [context.Context] is only handed on to conditions, audit loggers and the
    manager; the engine never inspects it. *)
Inductive context_Context :=
  | context_Background
  | context_WithValue (parent : context_Context) (key val : string).

(** [type Request struct]: the request context is a [map[string]interface{}]. *)
Record Request := {
  Resource : string;
  Action : string;
  Subject : string;
  Context : gmap string Value;
}.

(** [type Condition interface]: only [Fulfills] is used by the engine. *)
Record Condition := {
  Fulfills : context_Context → Value → Request → bool;
}.

(** [type Policy interface], restricted to the methods ladon.go calls.
    [GetConditions] lists the entries of the policy's condition map in the
    order in which a [range] statement visits them; Go leaves that order
    open, so no property below may depend on it beyond what it states.  The
    keys of a map are distinct; no property below needs that. *)
Record Policy := {
  GetActions : list string;
  GetSubjects : list string;
  GetResources : list string;
  GetConditions : list (string * Condition);
  AllowAccess : bool;
}.

Definition Policies := list Policy.

(** [type matcher interface { Matches(p, haystack, needle) (bool, error) }]. *)
Definition matcher := Policy → list string → string → bool * option error.

(** [type Manager interface], restricted to [FindRequestCandidates]. *)
Definition manager := context_Context → Request → Policies * option error.

(** Modelled from the spec: the audit logger and metric implementations live
    outside ladon.go.  They are sinks (no result is read back), so the model
    keeps only which implementation a field holds; the defaults are the
    no-op ones (spec section 4.2). *)
Inductive auditLogger :=
  | AuditLoggerNoOp
  | AuditLoggerNamed (name : string).

Inductive metric :=
  | MetricNoOp
  | MetricNamed (name : string).

(** [type Ladon struct]; every field is an interface value and may be nil. *)
Record Ladon := {
  Manager : option manager;
  Matcher : option matcher;
  AuditLogger : option auditLogger;
  Metric : option metric;
}.

(** [sync.Once]: the flag says whether [Do] has already run its argument. *)
Definition Once := bool.

Definition Once_Do {S : Type} (o : Once) (f : S → S) (s : S) : Once * S :=
  if o then (o, s) else (true, f s).

(** The package-level variables of package ladon that ladon.go reads or
    writes.  [DefaultMatcher], [DefaultAuditLogger] and [DefaultMetric] are
    declared in other files and enter as fields. *)
Record Globals := {
  lazyInitOnce : Once;
  DefaultMatcher : matcher;
  DefaultAuditLogger : auditLogger;
  DefaultMetric : metric;
}.

(** ** Traces *)

Inductive AuditCall :=
  | LogGrantedAccessRequest
      (ctx : context_Context) (r : Request) (pool deciders : Policies)
  | LogRejectedAccessRequest
      (ctx : context_Context) (r : Request) (pool deciders : Policies).

Inductive MetricCall :=
  | RequestAllowedBy (r : Request) (deciders : Policies)
  | RequestDeniedBy (r : Request) (p : Policy)
  | RequestNoMatch (r : Request)
  | RequestProcessingError (r : Request) (p : option Policy) (err : error).

(** How a call statement is written: [f(x)] or [go f(x)]. *)
Inductive Dispatch := InPlace | GoStmt.

Inductive Event :=
  | EvFindRequestCandidates (ctx : context_Context) (r : Request)
  | EvMatches (p : Policy) (haystack : list string) (needle : string)
      (res : bool * option error)
  | EvFulfills (key : string) (c : Condition) (v : Value) (r : Request)
      (pass : bool)
  | EvAllowAccess (p : Policy) (res : bool)
  | EvAudit (c : AuditCall)
  | EvMetric (d : Dispatch) (c : MetricCall).

(** ** The effect monad: a trace writer that may panic *)

Inductive Outcome (A : Type) :=
  | Ok (a : A)
  | Panic.
Arguments Ok {A} a.
Arguments Panic {A}.

Definition M (A : Type) : Type := list Event * Outcome A.

Definition ret {A} (a : A) : M A := ([], Ok a).
Definition panic {A} : M A := ([], Panic).
Definition emit (e : Event) : M unit := ([e], Ok tt).

Definition bind {A B} (c : M A) (k : A → M B) : M B :=
  match c with
  | (t, Ok a) => let '(t', o) := k a in (t ++ t', o)
  | (t, Panic) => (t, Panic)
  end.

Declare Scope ladon_scope.
Delimit Scope ladon_scope with ladon.
Notation "x <- c ;; k" := (bind c (fun x => k))
  (at level 100, c at next level, right associativity) : ladon_scope.
Notation "c ;; k" := (bind c (fun _ => k))
  (at level 100, right associativity) : ladon_scope.
Open Scope ladon_scope.

Definition trace {A} (c : M A) : list Event := c.1.
Definition outcome {A} (c : M A) : Outcome A := c.2.

(** ** Calls into the collaborators

    Each one reads the field of the engine at the moment of the call; a nil
    field panics before anything is recorded. *)

(** [l.Matcher.Matches(p, haystack, needle)] *)
Definition Matcher_Matches (l : Ladon) (p : Policy)
    (haystack : list string) (needle : string) : M (bool * option error) :=
  match Matcher l with
  | None => panic
  | Some m =>
      let res := m p haystack needle in
      emit (EvMatches p haystack needle res);; ret res
  end.

(** [l.AuditLogger.LogGrantedAccessRequest(...)] and
    [l.AuditLogger.LogRejectedAccessRequest(...)] *)
Definition AuditLogger_call (l : Ladon) (c : AuditCall) : M unit :=
  match AuditLogger l with
  | None => panic
  | Some _ => emit (EvAudit c)
  end.

(** [l.Metric.f(...)] when [d = InPlace], [go l.Metric.f(...)] when
    [d = GoStmt]; the receiver is evaluated by the caller in both. *)
Definition Metric_call (l : Ladon) (d : Dispatch) (c : MetricCall) : M unit :=
  match Metric l with
  | None => panic
  | Some _ => emit (EvMetric d c)
  end.

(** [l.Manager.FindRequestCandidates(ctx, r)] *)
Definition Manager_FindRequestCandidates (l : Ladon)
    (ctx : context_Context) (r : Request) : M (Policies * option error) :=
  match Manager l with
  | None => panic
  | Some mg => emit (EvFindRequestCandidates ctx r);; ret (mg ctx r)
  end.

(** [p.AllowAccess()] *)
Definition Policy_AllowAccess (p : Policy) : M bool :=
  emit (EvAllowAccess p (AllowAccess p));; ret (AllowAccess p).

(** ** [lazyInit]

    The function literal handed to [lazyInitOnce.Do]. *)
Definition wireDefaults (g : Globals) (l : Ladon) : Ladon :=
  {| Manager := Manager l;
     Matcher :=
       match Matcher l with None => Some (DefaultMatcher g) | m => m end;
     AuditLogger :=
       match AuditLogger l with
       | None => Some (DefaultAuditLogger g)
       | a => a
       end;
     Metric :=
       match Metric l with None => Some (DefaultMetric g) | m => m end |}.

Definition setOnce (g : Globals) (o : Once) : Globals :=
  {| lazyInitOnce := o;
     DefaultMatcher := DefaultMatcher g;
     DefaultAuditLogger := DefaultAuditLogger g;
     DefaultMetric := DefaultMetric g |}.

(** [func (l *Ladon) lazyInit()]: [lazyInitOnce] is the package-level
    variable, one for all engines. *)
Definition lazyInit (g : Globals) (l : Ladon) : Globals * Ladon :=
  let '(o, l') := Once_Do (lazyInitOnce g) (wireDefaults g) l in
  (setOnce g o, l').

(** ** [passesConditions]

    [rangeConditions] is the [for key, condition := range ...] loop over the
    entries still to visit; [r.Context[key]] is the total lookup, which gives
    the zero value [VNil] at an absent key. *)
Fixpoint rangeConditions (ctx : context_Context) (r : Request)
    (entries : list (string * Condition)) : M bool :=
  match entries with
  | [] => ret true
  | (key, condition) :: rest =>
      let v := Context r !!! key in
      let pass := Fulfills condition ctx v r in
      emit (EvFulfills key condition v r pass);;
      if negb pass then ret false else rangeConditions ctx r rest
  end.

Definition passesConditions (ctx : context_Context) (p : Policy)
    (r : Request) : M bool :=
  rangeConditions ctx r (GetConditions p).

(** ** [DoPoliciesAllow] *)

(** What one pass through the body of the [for _, p := range policies] loop
    ends in: the next iteration, with the two local variables as they now
    are ([continue] or the end of the body), or a [return]. *)
Inductive Flow :=
  | Next (allowed : bool) (deciders : Policies)
  | Return (err : option error).

(** The loop body, lines 81 to 128. *)
Definition loopBody (l : Ladon) (ctx : context_Context) (r : Request)
    (policies : Policies) (allowed : bool) (deciders : Policies)
    (p : Policy) : M Flow :=
  am <- Matcher_Matches l p (GetActions p) (Action r);;
  match am with
  | (_, Some err) =>
      Metric_call l GoStmt (RequestProcessingError r (Some p) err);;
      ret (Return (errors_WithStack (Some err)))
  | (false, None) => ret (Next allowed deciders)
  | (true, None) =>
  sm <- Matcher_Matches l p (GetSubjects p) (Subject r);;
  match sm with
  | (_, Some err) =>
      Metric_call l GoStmt (RequestProcessingError r (Some p) err);;
      ret (Return (Some err))
  | (false, None) => ret (Next allowed deciders)
  | (true, None) =>
  rm <- Matcher_Matches l p (GetResources p) (Resource r);;
  match rm with
  | (_, Some err) =>
      Metric_call l GoStmt (RequestProcessingError r (Some p) err);;
      ret (Return (errors_WithStack (Some err)))
  | (false, None) => ret (Next allowed deciders)
  | (true, None) =>
  pass <- passesConditions ctx p r;;
  if negb pass then ret (Next allowed deciders) else
  allow <- Policy_AllowAccess p;;
  if negb allow then
    let deciders := deciders ++ [p] in
    AuditLogger_call l (LogRejectedAccessRequest ctx r policies deciders);;
    Metric_call l GoStmt (RequestDeniedBy r p);;
    ret (Return (errors_WithStack (Some ErrRequestForcefullyDenied)))
  else
    ret (Next true (deciders ++ [p]))
  end end end.

(** The statements after the loop, lines 131 to 141. *)
Definition afterLoop (l : Ladon) (ctx : context_Context) (r : Request)
    (policies : Policies) (allowed : bool) (deciders : Policies)
    : M (option error) :=
  if negb allowed then
    Metric_call l GoStmt (RequestNoMatch r);;
    AuditLogger_call l (LogRejectedAccessRequest ctx r policies deciders);;
    ret (errors_WithStack (Some ErrRequestDenied))
  else
    AuditLogger_call l (LogGrantedAccessRequest ctx r policies deciders);;
    Metric_call l InPlace (RequestAllowedBy r deciders);;
    ret None.

(** The loop over the policies still to visit, followed by [afterLoop]. *)
Fixpoint policiesLoop (l : Ladon) (ctx : context_Context) (r : Request)
    (policies : Policies) (allowed : bool) (deciders : Policies)
    (todo : Policies) : M (option error) :=
  match todo with
  | [] => afterLoop l ctx r policies allowed deciders
  | p :: todo' =>
      fl <- loopBody l ctx r policies allowed deciders p;;
      match fl with
      | Next allowed' deciders' =>
          policiesLoop l ctx r policies allowed' deciders' todo'
      | Return err => ret err
      end
  end.

(** [func (l *Ladon) DoPoliciesAllow(ctx, r, policies) (err error)]: the
    package state and the engine as [lazyInit] leaves them, and the run. *)
Definition DoPoliciesAllow (g : Globals) (l : Ladon) (ctx : context_Context)
    (r : Request) (policies : Policies)
    : Globals * Ladon * M (option error) :=
  let '(g', l') := lazyInit g l in
  (g', l', policiesLoop l' ctx r policies false [] policies).

(** [func (l *Ladon) IsAllowed(ctx, r) (err error)] *)
Definition IsAllowed (g : Globals) (l : Ladon) (ctx : context_Context)
    (r : Request) : Globals * Ladon * M (option error) :=
  let '(g', l') := lazyInit g l in
  match Manager_FindRequestCandidates l' ctx r with
  | (t, Panic) => (g', l', (t, Panic))
  | (t, Ok (_, Some err)) =>
      (g', l',
       ((t, Ok tt);;
        Metric_call l' GoStmt (RequestProcessingError r None err);;
        ret (Some err)))
  | (t, Ok (policies, None)) =>
      let '(g'', l'', run) := DoPoliciesAllow g' l' ctx r policies in
      (g'', l'', ((t, Ok tt);; run))
  end.

(** ** Reading a run *)

(** The run of [DoPoliciesAllow]: its trace and what it returns. *)
Definition runOf (g : Globals) (l : Ladon) (ctx : context_Context)
    (r : Request) (policies : Policies) : M (option error) :=
  (DoPoliciesAllow g l ctx r policies).2.

(** The engine that [DoPoliciesAllow g l] works with, after [lazyInit], has
    matcher [m] and both sinks set. *)
Definition ready (g : Globals) (l : Ladon) (m : matcher) : Prop :=
  Matcher (lazyInit g l).2 = Some m
  ∧ is_Some (AuditLogger (lazyInit g l).2)
  ∧ is_Some (Metric (lazyInit g l).2).

(** The three collaborators of [l] are set, the matcher being [m]. *)
Definition wired (l : Ladon) (m : matcher) : Prop :=
  Matcher l = Some m ∧ is_Some (AuditLogger l) ∧ is_Some (Metric l).

Definition auditCalls (t : list Event) : list AuditCall :=
  omap (λ e, match e with EvAudit c => Some c | _ => None end) t.

Definition metricCalls (t : list Event) : list (Dispatch * MetricCall) :=
  omap (λ e, match e with EvMetric d c => Some (d, c) | _ => None end) t.

(** The policies whose effect was read, in order. *)
Definition effectChecked (t : list Event) : Policies :=
  omap (λ e, match e with EvAllowAccess p _ => Some p | _ => None end) t.

(** Some [Matches] call of the trace returned an error. *)
Definition matcherErred (t : list Event) : bool :=
  existsb
    (λ e, match e with EvMatches _ _ _ (_, Some _) => true | _ => false end) t.

(** The checks of a trace: calls to the matcher, to conditions and to
    [AllowAccess]. *)
Definition isCheck (e : Event) : bool :=
  match e with
  | EvMatches _ _ _ _ | EvFulfills _ _ _ _ _ | EvAllowAccess _ _ => true
  | _ => false
  end.

Definition checks (t : list Event) : list Event := filter isCheck t.

(** The three pattern sets of [p] match the request, without error. *)
Definition patternsMatch (m : matcher) (r : Request) (p : Policy) : Prop :=
  m p (GetActions p) (Action r) = (true, None)
  ∧ m p (GetSubjects p) (Subject r) = (true, None)
  ∧ m p (GetResources p) (Resource r) = (true, None).

(** Whether the condition of one entry is fulfilled by the request, and the
    event its evaluation leaves. *)
Definition holds (ctx : context_Context) (r : Request)
    (kc : string * Condition) : bool :=
  Fulfills kc.2 ctx (Context r !!! kc.1) r.

Definition fulfillsEvent (ctx : context_Context) (r : Request)
    (kc : string * Condition) : Event :=
  EvFulfills kc.1 kc.2 (Context r !!! kc.1) r (holds ctx r kc).

(** Every (key, condition) pair of [p] is fulfilled. *)
Definition conditionsHold (ctx : context_Context) (r : Request)
    (p : Policy) : Prop :=
  ∀ key c, (key, c) ∈ GetConditions p →
    Fulfills c ctx (Context r !!! key) r = true.

Definition fullyMatches (m : matcher) (ctx : context_Context) (r : Request)
    (p : Policy) : Prop :=
  patternsMatch m r p ∧ conditionsHold ctx r p.

(** One of the [Matches] calls that the loop body makes for [p] returns an
    error: the action call, or the subject call after a matching action, or
    the resource call after a matching action and subject. *)
Definition matchFails (m : matcher) (r : Request) (p : Policy) : Prop :=
  is_Some (m p (GetActions p) (Action r)).2
  ∨ (m p (GetActions p) (Action r) = (true, None)
     ∧ is_Some (m p (GetSubjects p) (Subject r)).2)
  ∨ (m p (GetActions p) (Action r) = (true, None)
     ∧ m p (GetSubjects p) (Subject r) = (true, None)
     ∧ is_Some (m p (GetResources p) (Resource r)).2).

(** The checks of one policy in the order of the source: action, subject,
    resource, the conditions, the effect. *)
Definition checksInOrder (m : matcher) (ctx : context_Context) (r : Request)
    (p : Policy) : list Event :=
  [ EvMatches p (GetActions p) (Action r) (m p (GetActions p) (Action r));
    EvMatches p (GetSubjects p) (Subject r) (m p (GetSubjects p) (Subject r));
    EvMatches p (GetResources p) (Resource r)
      (m p (GetResources p) (Resource r)) ]
  ++ (fulfillsEvent ctx r <$> GetConditions p)
  ++ [ EvAllowAccess p (AllowAccess p) ].

(** How one pass through the loop body goes, in terms of the policy: what it
    returns and what its trace holds. *)
Inductive BodyCase (m : matcher) (ctx : context_Context) (r : Request)
    (policies : Policies) (allowed : bool) (deciders : Policies)
    (p : Policy) : M Flow → Prop :=
  | BodyFails t err cause :
      matchFails m r p →
      auditCalls t = [] →
      metricCalls t = [(GoStmt, RequestProcessingError r (Some p) cause)] →
      effectChecked t = [] →
      matcherErred t = true →
      BodyCase m ctx r policies allowed deciders p
        (t, Ok (Return (Some err)))
  | BodySkips t :
      ¬ matchFails m r p →
      ¬ fullyMatches m ctx r p →
      auditCalls t = [] →
      metricCalls t = [] →
      effectChecked t = [] →
      matcherErred t = false →
      BodyCase m ctx r policies allowed deciders p
        (t, Ok (Next allowed deciders))
  | BodyDenies t :
      fullyMatches m ctx r p →
      AllowAccess p = false →
      auditCalls t
        = [LogRejectedAccessRequest ctx r policies (deciders ++ [p])] →
      metricCalls t = [(GoStmt, RequestDeniedBy r p)] →
      effectChecked t = [p] →
      matcherErred t = false →
      BodyCase m ctx r policies allowed deciders p
        (t, Ok (Return (Some (WithStack ErrRequestForcefullyDenied))))
  | BodyAllows t :
      fullyMatches m ctx r p →
      AllowAccess p = true →
      auditCalls t = [] →
      metricCalls t = [] →
      effectChecked t = [p] →
      matcherErred t = false →
      BodyCase m ctx r policies allowed deciders p
        (t, Ok (Next true (deciders ++ [p]))).

(** A policy that lets the loop go on to the next one: no [Matches] call
    fails on it and it is not a fully-matching deny policy. *)
Definition passedOver (m : matcher) (ctx : context_Context) (r : Request)
    (p : Policy) : Prop :=
  ¬ matchFails m r p ∧ ¬ (fullyMatches m ctx r p ∧ AllowAccess p = false).

(** A policy that the loop skips: no [Matches] call fails on it and it does
    not fully match. *)
Definition skipped (m : matcher) (ctx : context_Context) (r : Request)
    (p : Policy) : Prop :=
  ¬ matchFails m r p ∧ ¬ fullyMatches m ctx r p.

(** The four terminal outcomes of the loop started with [allowed] and
    [deciders] on the policies [todo], in terms of the policies: what is
    returned and what the trace holds. *)
Inductive RunCase (m : matcher) (ctx : context_Context) (r : Request)
    (policies : Policies) (allowed : bool) (deciders : Policies)
    (todo : Policies) : M (option error) → Prop :=
  | RunAborted t err before p after cause :
      todo = before ++ p :: after →
      Forall (passedOver m ctx r) before →
      matchFails m r p →
      matcherErred t = true →
      auditCalls t = [] →
      metricCalls t = [(GoStmt, RequestProcessingError r (Some p) cause)] →
      RunCase m ctx r policies allowed deciders todo (t, Ok (Some err))
  | RunDenied t before d after :
      todo = before ++ d :: after →
      Forall (passedOver m ctx r) before →
      fullyMatches m ctx r d →
      AllowAccess d = false →
      matcherErred t = false →
      (∃ ds, effectChecked t = ds ++ [d]) →
      auditCalls t
        = [LogRejectedAccessRequest ctx r policies
             (deciders ++ effectChecked t)] →
      metricCalls t = [(GoStmt, RequestDeniedBy r d)] →
      RunCase m ctx r policies allowed deciders todo
        (t, Ok (Some (WithStack ErrRequestForcefullyDenied)))
  | RunDefaultDenied t :
      allowed = false →
      Forall (skipped m ctx r) todo →
      matcherErred t = false →
      effectChecked t = [] →
      auditCalls t = [LogRejectedAccessRequest ctx r policies deciders] →
      metricCalls t = [(GoStmt, RequestNoMatch r)] →
      RunCase m ctx r policies allowed deciders todo
        (t, Ok (Some (WithStack ErrRequestDenied)))
  | RunGranted t :
      Forall (passedOver m ctx r) todo →
      (allowed = false →
       ∃ q, q ∈ todo ∧ fullyMatches m ctx r q ∧ AllowAccess q = true) →
      matcherErred t = false →
      auditCalls t
        = [LogGrantedAccessRequest ctx r policies
             (deciders ++ effectChecked t)] →
      metricCalls t
        = [(InPlace, RequestAllowedBy r (deciders ++ effectChecked t))] →
      RunCase m ctx r policies allowed deciders todo (t, Ok None).

(** The audit call that goes with a returned value: granted for nil,
    rejected for an error. *)
Definition auditFor (res : option error)
    : context_Context → Request → Policies → Policies → AuditCall :=
  match res with
  | None => LogGrantedAccessRequest
  | Some _ => LogRejectedAccessRequest
  end.

(** A check that lets the loop body go on to its next check. *)
Definition passed (e : Event) : bool :=
  match e with
  | EvMatches _ _ _ (true, None) => true
  | EvFulfills _ _ _ _ true => true
  | _ => false
  end.

(** What the loop body does after its last check [e]: a failed [Matches] is
    fatal, a set that does not match or a condition that does not hold goes
    to the next policy with nothing changed and no error, and the effect
    decides between a deny and an allow. *)
Definition decides (allowed : bool) (deciders : Policies) (p : Policy)
    (e : Event) (o : Outcome Flow) : Prop :=
  match e with
  | EvMatches _ _ _ (_, Some err) =>
      o = Ok (Return (Some err)) ∨ o = Ok (Return (Some (WithStack err)))
  | EvMatches _ _ _ (false, None) => o = Ok (Next allowed deciders)
  | EvFulfills _ _ _ _ false => o = Ok (Next allowed deciders)
  | EvAllowAccess _ false =>
      o = Ok (Return (Some (WithStack ErrRequestForcefullyDenied)))
  | EvAllowAccess _ true => o = Ok (Next true (deciders ++ [p]))
  | _ => False
  end.

(** ** Sample data *)

(** A matcher for the samples: a pattern set containing the pattern [[] is
    malformed and makes the call fail; any other set matches the strings it
    contains. *)
Definition sampleMatcher : matcher := λ _ haystack needle,
  if existsb (String.eqb "[") haystack
  then (false, Some (ErrOther "malformed pattern"))
  else (existsb (String.eqb needle) haystack, None).

Definition sampleGlobals : Globals :=
  {| lazyInitOnce := false;
     DefaultMatcher := sampleMatcher;
     DefaultAuditLogger := AuditLoggerNoOp;
     DefaultMetric := MetricNoOp |}.

(** An engine built with no collaborator set: [&Ladon{}]. *)
Definition emptyLadon : Ladon :=
  {| Manager := None; Matcher := None; AuditLogger := None; Metric := None |}.

(** An engine built with every collaborator but the manager set. *)
Definition sampleLadon : Ladon :=
  {| Manager := None;
     Matcher := Some sampleMatcher;
     AuditLogger := Some (AuditLoggerNamed "stdout");
     Metric := Some (MetricNamed "prometheus") |}.

Definition aliceReadsDoc1 : Request :=
  {| Resource := "doc1"; Action := "read"; Subject := "alice";
     Context := {[ "ip" := VString "8.8.8.8" ]} |}.

Definition internalIP : Condition :=
  {| Fulfills := λ _ v _,
       match v with VString s => String.eqb s "10.0.0.1" | _ => false end |}.

Definition isSet : Condition :=
  {| Fulfills := λ _ v _, match v with VNil => false | _ => true end |}.

Definition allowAlice : Policy :=
  {| GetActions := ["read"]; GetSubjects := ["alice"];
     GetResources := ["doc1"]; GetConditions := []; AllowAccess := true |}.

Definition denyAlice : Policy :=
  {| GetActions := ["read"]; GetSubjects := ["alice"];
     GetResources := ["doc1"]; GetConditions := []; AllowAccess := false |}.

Definition allowBob : Policy :=
  {| GetActions := ["read"]; GetSubjects := ["bob"];
     GetResources := ["doc1"]; GetConditions := []; AllowAccess := true |}.

Definition badActions : Policy :=
  {| GetActions := ["["]; GetSubjects := ["alice"];
     GetResources := ["doc1"]; GetConditions := []; AllowAccess := true |}.

Definition badSubjects : Policy :=
  {| GetActions := ["read"]; GetSubjects := ["["];
     GetResources := ["doc1"]; GetConditions := []; AllowAccess := true |}.

Definition allowAliceInternal : Policy :=
  {| GetActions := ["read"]; GetSubjects := ["alice"];
     GetResources := ["doc1"];
     GetConditions := [("owner", isSet); ("ip", internalIP)];
     AllowAccess := true |}.

Definition allowAliceInternal' : Policy :=
  {| GetActions := ["read"]; GetSubjects := ["alice"];
     GetResources := ["doc1"];
     GetConditions := [("ip", internalIP); ("owner", isSet)];
     AllowAccess := true |}.

(** A manager that finds two candidates, and one whose store is down. *)
Definition sampleManager : manager := λ _ _, ([allowAlice; denyAlice], None).

Definition brokenManager : manager :=
  λ _ _, ([allowAlice], Some (ErrOther "store is down")).

(** Engines built with a manager only, and with an audit logger only. *)
Definition managedLadon : Ladon :=
  {| Manager := Some sampleManager;
     Matcher := None; AuditLogger := None; Metric := None |}.

Definition brokenStoreLadon : Ladon :=
  {| Manager := Some brokenManager;
     Matcher := None; AuditLogger := None; Metric := None |}.

Definition loggingLadon : Ladon :=
  {| Manager := None; Matcher := None;
     AuditLogger := Some (AuditLoggerNamed "stdout"); Metric := None |}.

(** A policy with three conditions: the request context has the key of the
    first one only. *)
Definition allowAliceOwned : Policy :=
  {| GetActions := ["read"]; GetSubjects := ["alice"];
     GetResources := ["doc1"];
     GetConditions :=
       [("ip", isSet); ("owner", isSet); ("office", internalIP)];
     AllowAccess := true |}.

(** A policy whose one condition the request fulfills, and one whose
    resource patterns are malformed. *)
Definition allowAliceTraced : Policy :=
  {| GetActions := ["read"]; GetSubjects := ["alice"];
     GetResources := ["doc1"];
     GetConditions := [("ip", isSet)];
     AllowAccess := true |}.

Definition badResources : Policy :=
  {| GetActions := ["read"]; GetSubjects := ["alice"];
     GetResources := ["["]; GetConditions := []; AllowAccess := true |}.

(** ** Further readings of a run *)

(** A [Matches] result that says "matches" with no error. *)
Definition matched (res : bool * option error) : bool :=
  match res with
  | (true, None) => true
  | _ => false
  end.

(** [fullyMatches], computed. *)
Definition fullyMatchesb (m : matcher) (ctx : context_Context) (r : Request)
    (p : Policy) : bool :=
  matched (m p (GetActions p) (Action r))
  && matched (m p (GetSubjects p) (Subject r))
  && matched (m p (GetResources p) (Resource r))
  && forallb (holds ctx r) (GetConditions p).

(** The policies on which [Matches] was called, one entry per call. *)
Definition matcherCalls (t : list Event) : Policies :=
  omap (λ e, match e with EvMatches p _ _ _ => Some p | _ => None end) t.



(** What the last check made on a policy says: the loop goes on to the next
    policy (a pattern set does not match, a condition is not fulfilled, or
    the effect is allow), or the [Matches] call failed, or the effect is
    deny. *)
Definition goesOn (e : Event) : bool :=
  match e with
  | EvMatches _ _ _ (false, None) => true
  | EvFulfills _ _ _ _ false => true
  | EvAllowAccess _ true => true
  | _ => false
  end.

Definition failedWith (e : Event) : option error :=
  match e with
  | EvMatches _ _ _ (_, Some err) => Some err
  | _ => None
  end.

Definition denies (e : Event) : bool :=
  match e with
  | EvAllowAccess _ false => true
  | _ => false
  end.

(** Only an allow effect sets [allowed]. *)
Definition allowedAfter (allowed : bool) (e : Event) : bool :=
  match e with
  | EvAllowAccess _ true => true
  | _ => allowed
  end.

(** The checks of a whole run, policy by policy, and the value returned,
    starting with [allowed].  For each policy visited the checks are an
    initial stretch of [checksInOrder] (action, subject, resource, the
    conditions, the effect) in which every check but the last passed.  The
    last check of a policy either lets the run go on with the next policy,
    or is a failed [Matches], which ends the run with its error (as it is
    or wrapped), or is a deny effect, which ends the run with
    [ErrRequestForcefullyDenied].  When the list is exhausted the run
    returns nil if [allowed] was set and [ErrRequestDenied] otherwise. *)
Inductive OrderedChecks (m : matcher) (ctx : context_Context) (r : Request)
    : bool → Policies → list Event → option error → Prop :=
  | OC_exhausted allowed :
      OrderedChecks m ctx r allowed [] []
        (if allowed then None else Some (WithStack ErrRequestDenied))
  | OC_goes_on allowed q rest passedChecks lastCheck cs res :
      passedChecks ++ [lastCheck] `prefix_of` checksInOrder m ctx r q →
      Forall (λ e, passed e = true) passedChecks →
      goesOn lastCheck = true →
      OrderedChecks m ctx r (allowedAfter allowed lastCheck) rest cs res →
      OrderedChecks m ctx r allowed (q :: rest)
        ((passedChecks ++ [lastCheck]) ++ cs) res
  | OC_fatal allowed q rest passedChecks lastCheck err res :
      passedChecks ++ [lastCheck] `prefix_of` checksInOrder m ctx r q →
      Forall (λ e, passed e = true) passedChecks →
      failedWith lastCheck = Some err →
      res = Some err ∨ res = Some (WithStack err) →
      OrderedChecks m ctx r allowed (q :: rest)
        (passedChecks ++ [lastCheck]) res
  | OC_denied allowed q rest passedChecks lastCheck :
      passedChecks ++ [lastCheck] `prefix_of` checksInOrder m ctx r q →
      Forall (λ e, passed e = true) passedChecks →
      denies lastCheck = true →
      OrderedChecks m ctx r allowed (q :: rest)
        (passedChecks ++ [lastCheck])
        (Some (WithStack ErrRequestForcefullyDenied)).

(** * Properties *)

(** ** The monad *)

Lemma bind_Ok {A B} (t : list Event) (a : A) (k : A → M B) :
  bind (t, Ok a) k = (t ++ trace (k a), outcome (k a)).
Proof. unfold bind, trace, outcome. by destruct (k a). Qed.

Lemma bind_Panic {A B} (t : list Event) (k : A → M B) :
  bind (t, Panic) k = (t, Panic).
Proof. done. Qed.

Lemma M_eta {A} (c : M A) : c = (trace c, outcome c).
Proof. by destruct c. Qed.

(** ** Reading traces *)

Lemma auditCalls_app t1 t2 :
  auditCalls (t1 ++ t2) = auditCalls t1 ++ auditCalls t2.
Proof. apply omap_app. Qed.

Lemma metricCalls_app t1 t2 :
  metricCalls (t1 ++ t2) = metricCalls t1 ++ metricCalls t2.
Proof. apply omap_app. Qed.

Lemma effectChecked_app t1 t2 :
  effectChecked (t1 ++ t2) = effectChecked t1 ++ effectChecked t2.
Proof. apply omap_app. Qed.

Lemma matcherErred_app t1 t2 :
  matcherErred (t1 ++ t2) = matcherErred t1 || matcherErred t2.
Proof. apply existsb_app. Qed.

Lemma checks_app t1 t2 : checks (t1 ++ t2) = checks t1 ++ checks t2.
Proof. apply filter_app. Qed.

(** Traces made of condition evaluations only. *)
Section ConditionEvents.
Variables (ctx : context_Context) (r : Request).
Implicit Types cs : list (string * Condition).

Lemma auditCalls_fulfills cs : auditCalls (fulfillsEvent ctx r <$> cs) = [].
Proof. by induction cs. Qed.

Lemma metricCalls_fulfills cs :
  metricCalls (fulfillsEvent ctx r <$> cs) = [].
Proof. by induction cs. Qed.

Lemma effectChecked_fulfills cs :
  effectChecked (fulfillsEvent ctx r <$> cs) = [].
Proof. by induction cs. Qed.

Lemma matcherErred_fulfills cs :
  matcherErred (fulfillsEvent ctx r <$> cs) = false.
Proof. by induction cs. Qed.

Lemma checks_fulfills cs :
  checks (fulfillsEvent ctx r <$> cs) = fulfillsEvent ctx r <$> cs.
Proof.
  induction cs as [|kc cs IH]; [done|].
  rewrite fmap_cons. unfold checks in *.
  rewrite filter_cons_True by done. by rewrite IH.
Qed.

(** The [range] loop stops at the first entry that is not fulfilled: it
    evaluates the entries before it and that one, nothing after. *)
Lemma rangeConditions_spec cs :
  ∃ n, rangeConditions ctx r cs
       = (fulfillsEvent ctx r <$> take n cs,
          Ok (forallb (holds ctx r) cs))
     ∧ (forallb (holds ctx r) cs = true → take n cs = cs)
     ∧ (forallb (holds ctx r) cs = false →
        ∃ pre kc, take n cs = pre ++ [kc]
          ∧ forallb (holds ctx r) pre = true ∧ holds ctx r kc = false).
Proof.
  induction cs as [|[key c] cs (n & IH & Hall & Hstop)].
  { exists 0. by repeat split. }
  cbn [rangeConditions forallb].
  change (Fulfills c ctx (Context r !!! key) r)
    with (holds ctx r (key, c)).
  unfold emit. rewrite bind_Ok.
  destruct (holds ctx r (key, c)) eqn:Hkc; cbn [negb andb].
  - exists (S n). rewrite IH. cbn [trace outcome fst snd].
    split; [|split].
    + cbn [take fmap list_fmap]. unfold fulfillsEvent at 2.
      by rewrite Hkc.
    + intros H; cbn [take]; by rewrite Hall.
    + intros (pre & kc & Hpre & Hok & Hkc')%Hstop.
      exists ((key, c) :: pre), kc. cbn [take forallb].
      by rewrite Hpre, Hkc, Hok.
  - exists 1. split; [|split; [done|]].
    + cbn. unfold fulfillsEvent. cbn. by rewrite Hkc.
    + intros _. by exists [], (key, c).
Qed.

Lemma forallb_holds_conditionsHold p :
  forallb (holds ctx r) (GetConditions p) = true ↔ conditionsHold ctx r p.
Proof.
  unfold conditionsHold. rewrite forallb_forall. split.
  - intros H key c Hin. apply (H (key, c)). by apply list_elem_of_In.
  - intros H [key c] Hin. apply H. by apply list_elem_of_In.
Qed.
End ConditionEvents.

(** ** One pass through the loop body, with the collaborators set *)

Section Wired.
Variables (l : Ladon) (m : matcher).
Hypothesis Hwired : wired l m.

Lemma Matcher_Matches_wired p haystack needle :
  Matcher_Matches l p haystack needle
  = ([EvMatches p haystack needle (m p haystack needle)],
     Ok (m p haystack needle)).
Proof. unfold Matcher_Matches. by rewrite (proj1 Hwired). Qed.

Lemma AuditLogger_call_wired c : AuditLogger_call l c = ([EvAudit c], Ok tt).
Proof.
  unfold AuditLogger_call.
  by destruct Hwired as (_ & [a ->] & _).
Qed.

Lemma Metric_call_wired d c : Metric_call l d c = ([EvMetric d c], Ok tt).
Proof.
  unfold Metric_call.
  by destruct Hwired as (_ & _ & [mt ->]).
Qed.
End Wired.

(** Runs one call of a monadic sequence whose collaborators are set. *)
Ltac run_call H :=
  first
    [ rewrite (Matcher_Matches_wired _ _ H)
    | rewrite (AuditLogger_call_wired _ _ H)
    | rewrite (Metric_call_wired _ _ H)
    | progress unfold Policy_AllowAccess, emit, ret
    | rewrite bind_Ok ];
  rewrite ?bind_Ok; cbn [trace outcome fst snd].

Section LoopBody.
Variables (l : Ladon) (m : matcher).
Hypothesis Hwired : wired l m.
Variables (ctx : context_Context) (r : Request) (policies : Policies).
Variables (allowed : bool) (deciders : Policies) (p : Policy).

Let actionEv res := EvMatches p (GetActions p) (Action r) res.
Let subjectEv res := EvMatches p (GetSubjects p) (Subject r) res.
Let resourceEv res := EvMatches p (GetResources p) (Resource r) res.
Let failed err := EvMetric GoStmt (RequestProcessingError r (Some p) err).
Let body := loopBody l ctx r policies allowed deciders p.

Lemma loopBody_action_error b err :
  m p (GetActions p) (Action r) = (b, Some err) →
  body = ([actionEv (b, Some err); failed err],
          Ok (Return (Some (WithStack err)))).
Proof.
  intros Ha. subst body. unfold loopBody.
  run_call Hwired. rewrite Ha. destruct b; by repeat run_call Hwired.
Qed.

Lemma loopBody_action_nomatch :
  m p (GetActions p) (Action r) = (false, None) →
  body = ([actionEv (false, None)], Ok (Next allowed deciders)).
Proof.
  intros Ha. subst body. unfold loopBody.
  run_call Hwired. rewrite Ha. by repeat run_call Hwired.
Qed.

(** The subject branch returns [err] itself (line 97), where the action
    and resource branches return [errors.WithStack(err)]. *)
Lemma loopBody_subject_error b err :
  m p (GetActions p) (Action r) = (true, None) →
  m p (GetSubjects p) (Subject r) = (b, Some err) →
  body = ([actionEv (true, None); subjectEv (b, Some err); failed err],
          Ok (Return (Some err))).
Proof.
  intros Ha Hs. subst body. unfold loopBody.
  run_call Hwired. rewrite Ha. cbn iota.
  run_call Hwired. rewrite Hs. destruct b; by repeat run_call Hwired.
Qed.

Lemma loopBody_subject_nomatch :
  m p (GetActions p) (Action r) = (true, None) →
  m p (GetSubjects p) (Subject r) = (false, None) →
  body = ([actionEv (true, None); subjectEv (false, None)],
          Ok (Next allowed deciders)).
Proof.
  intros Ha Hs. subst body. unfold loopBody.
  run_call Hwired. rewrite Ha. cbn iota.
  run_call Hwired. rewrite Hs. by repeat run_call Hwired.
Qed.

Lemma loopBody_resource_error b err :
  m p (GetActions p) (Action r) = (true, None) →
  m p (GetSubjects p) (Subject r) = (true, None) →
  m p (GetResources p) (Resource r) = (b, Some err) →
  body = ([actionEv (true, None); subjectEv (true, None);
           resourceEv (b, Some err); failed err],
          Ok (Return (Some (WithStack err)))).
Proof.
  intros Ha Hs Hr. subst body. unfold loopBody.
  run_call Hwired. rewrite Ha. cbn iota.
  run_call Hwired. rewrite Hs. cbn iota.
  run_call Hwired. rewrite Hr. destruct b; by repeat run_call Hwired.
Qed.

Lemma loopBody_resource_nomatch :
  m p (GetActions p) (Action r) = (true, None) →
  m p (GetSubjects p) (Subject r) = (true, None) →
  m p (GetResources p) (Resource r) = (false, None) →
  body = ([actionEv (true, None); subjectEv (true, None);
           resourceEv (false, None)],
          Ok (Next allowed deciders)).
Proof.
  intros Ha Hs Hr. subst body. unfold loopBody.
  run_call Hwired. rewrite Ha. cbn iota.
  run_call Hwired. rewrite Hs. cbn iota.
  run_call Hwired. rewrite Hr. by repeat run_call Hwired.
Qed.

(** With the three pattern sets matching, the body goes on to the
    conditions and, if they all hold, to the effect. *)
Lemma loopBody_patterns_match :
  patternsMatch m r p →
  ∃ n,
    (forallb (holds ctx r) (GetConditions p) = true →
     take n (GetConditions p) = GetConditions p)
    ∧ (forallb (holds ctx r) (GetConditions p) = false →
       ∃ pre kc, take n (GetConditions p) = pre ++ [kc]
         ∧ forallb (holds ctx r) pre = true ∧ holds ctx r kc = false)
    ∧ body =
      let t := [actionEv (true, None); subjectEv (true, None);
                resourceEv (true, None)]
               ++ (fulfillsEvent ctx r <$> take n (GetConditions p)) in
      if negb (forallb (holds ctx r) (GetConditions p))
      then (t, Ok (Next allowed deciders))
      else if negb (AllowAccess p)
      then (t ++ [EvAllowAccess p false;
                  EvAudit (LogRejectedAccessRequest ctx r policies
                             (deciders ++ [p]));
                  EvMetric GoStmt (RequestDeniedBy r p)],
            Ok (Return (Some (WithStack ErrRequestForcefullyDenied))))
      else (t ++ [EvAllowAccess p true], Ok (Next true (deciders ++ [p]))).
Proof.
  intros (Ha & Hs & Hr).
  destruct (rangeConditions_spec ctx r (GetConditions p))
    as (n & Hrc & Hn & Hstop).
  exists n. split; [done|]. split; [done|].
  subst body. unfold loopBody.
  run_call Hwired. rewrite Ha. cbn iota.
  run_call Hwired. rewrite Hs. cbn iota.
  run_call Hwired. rewrite Hr. cbn iota.
  unfold passesConditions. rewrite Hrc, bind_Ok. cbn zeta.
  destruct (forallb (holds ctx r) (GetConditions p)); cbn [negb];
    [|repeat run_call Hwired; by rewrite app_nil_r].
  repeat run_call Hwired.
  destruct (AllowAccess p); cbn [negb]; repeat run_call Hwired;
    cbn [app]; by rewrite <-?app_assoc.
Qed.
End LoopBody.

(** ** The four ways a pass through the loop body can go *)

Lemma matchFails_not_patternsMatch m r p :
  matchFails m r p → ¬ patternsMatch m r p.
Proof.
  intros Hf (Ha & Hs & Hr). unfold matchFails in Hf.
  rewrite Ha, Hs, Hr in Hf. cbn in Hf.
  destruct Hf as [[? ?]|[[_ [? ?]]|(_ & _ & [? ?])]]; done.
Qed.

Lemma matchFails_not_fullyMatches m ctx r p :
  matchFails m r p → ¬ fullyMatches m ctx r p.
Proof. intros Hf [Hp _]. by eapply matchFails_not_patternsMatch. Qed.

Section BodyCases.
Variables (l : Ladon) (m : matcher).
Hypothesis Hwired : wired l m.
Variables (ctx : context_Context) (r : Request) (policies : Policies).
Variables (allowed : bool) (deciders : Policies) (p : Policy).

Lemma loopBody_cases :
  BodyCase m ctx r policies allowed deciders p
    (loopBody l ctx r policies allowed deciders p).
Proof.
  destruct (m p (GetActions p) (Action r)) as [ab [ae|]] eqn:Ha.
  { rewrite (loopBody_action_error _ _ Hwired _ _ _ _ _ _ _ _ Ha).
    eapply BodyFails; try done. left. rewrite Ha. by eexists. }
  destruct ab; cycle 1.
  { rewrite (loopBody_action_nomatch _ _ Hwired _ _ _ _ _ _ Ha).
    apply BodySkips; try done.
    - unfold matchFails. rewrite Ha. cbn. intros [[? ?]|[[? _]|[? _]]]; done.
    - intros [(Ha' & _) _]. congruence. }
  destruct (m p (GetSubjects p) (Subject r)) as [sb [se|]] eqn:Hs.
  { rewrite (loopBody_subject_error _ _ Hwired _ _ _ _ _ _ _ _ Ha Hs).
    eapply BodyFails; try done. right; left. rewrite Hs. split; [done|].
    by eexists. }
  destruct sb; cycle 1.
  { rewrite (loopBody_subject_nomatch _ _ Hwired _ _ _ _ _ _ Ha Hs).
    apply BodySkips; try done.
    - unfold matchFails. rewrite Ha, Hs. cbn.
      intros [[? ?]|[[_ [? ?]]|(_ & ? & _)]]; done.
    - intros [(_ & Hs' & _) _]. congruence. }
  destruct (m p (GetResources p) (Resource r)) as [rb [re|]] eqn:Hr.
  { rewrite (loopBody_resource_error _ _ Hwired _ _ _ _ _ _ _ _ Ha Hs Hr).
    eapply BodyFails; try done. right; right. rewrite Hr.
    by repeat split. }
  destruct rb; cycle 1.
  { rewrite (loopBody_resource_nomatch _ _ Hwired _ _ _ _ _ _ Ha Hs Hr).
    apply BodySkips; try done.
    - unfold matchFails. rewrite Ha, Hs, Hr. cbn.
      intros [[? ?]|[[_ [? ?]]|(_ & _ & [? ?])]]; done.
    - intros [(_ & _ & Hr') _]. congruence. }
  assert (patternsMatch m r p) as Hpm by done.
  destruct (loopBody_patterns_match _ _ Hwired ctx r policies allowed
              deciders p Hpm) as (n & Hn & _ & ->).
  cbn zeta.
  destruct (forallb (holds ctx r) (GetConditions p)) eqn:Hc; cbn [negb].
  - apply forallb_holds_conditionsHold in Hc.
    destruct (AllowAccess p) eqn:He; cbn [negb].
    + apply BodyAllows; try done;
        rewrite ?auditCalls_app, ?metricCalls_app, ?effectChecked_app,
          ?matcherErred_app, ?auditCalls_fulfills, ?metricCalls_fulfills,
          ?effectChecked_fulfills, ?matcherErred_fulfills; done.
    + apply BodyDenies; try done;
        rewrite ?auditCalls_app, ?metricCalls_app, ?effectChecked_app,
          ?matcherErred_app, ?auditCalls_fulfills, ?metricCalls_fulfills,
          ?effectChecked_fulfills, ?matcherErred_fulfills; done.
  - apply BodySkips;
      rewrite ?auditCalls_app, ?metricCalls_app, ?effectChecked_app,
        ?matcherErred_app, ?auditCalls_fulfills, ?metricCalls_fulfills,
        ?effectChecked_fulfills, ?matcherErred_fulfills; try done.
    + intros Hf. by apply matchFails_not_patternsMatch in Hf.
    + intros [_ Hch]. apply forallb_holds_conditionsHold in Hch. congruence.
Qed.
End BodyCases.

(** ** The whole loop *)

Section Loop.
Variables (l : Ladon) (m : matcher).
Hypothesis Hwired : wired l m.
Variables (ctx : context_Context) (r : Request) (policies : Policies).

Lemma afterLoop_denied deciders :
  afterLoop l ctx r policies false deciders
  = ([EvMetric GoStmt (RequestNoMatch r);
      EvAudit (LogRejectedAccessRequest ctx r policies deciders)],
     Ok (Some (WithStack ErrRequestDenied))).
Proof. unfold afterLoop. cbn [negb]. by repeat run_call Hwired. Qed.

Lemma afterLoop_granted deciders :
  afterLoop l ctx r policies true deciders
  = ([EvAudit (LogGrantedAccessRequest ctx r policies deciders);
      EvMetric InPlace (RequestAllowedBy r deciders)],
     Ok None).
Proof. unfold afterLoop. cbn [negb]. by repeat run_call Hwired. Qed.

Lemma policiesLoop_cases todo : ∀ allowed deciders,
  RunCase m ctx r policies allowed deciders todo
    (policiesLoop l ctx r policies allowed deciders todo).
Proof.
  induction todo as [|p todo IH]; intros allowed deciders.
  { cbn [policiesLoop]. destruct allowed.
    - rewrite afterLoop_granted. apply RunGranted; try done.
      all: by rewrite app_nil_r.
    - rewrite afterLoop_denied. by apply RunDefaultDenied. }
  cbn [policiesLoop].
  pose proof (loopBody_cases l m Hwired ctx r policies allowed deciders p)
    as HB.
  destruct HB as [t err cause Hf Ha Hm He Hx
                 |t Hnf Hnm Ha Hm He Hx
                 |t Hfm Heff Ha Hm He Hx
                 |t Hfm Heff Ha Hm He Hx];
    rewrite bind_Ok; cbn [trace outcome fst snd].
  - (* a Matches call fails on p *)
    unfold ret. cbn [fst snd]. rewrite app_nil_r.
    by eapply (RunAborted _ _ _ _ _ _ _ _ _ [] p todo).
  - (* p is skipped *)
    destruct (IH allowed deciders)
      as [t' err before q after cause -> Hbefore Hq Hx' Ha' Hm'
         |t' before d after -> Hbefore Hd Hdeny Hx' [ds He'] Ha' Hm'
         |t' -> Htodo Hx' He' Ha' Hm'
         |t' Htodo Hex Hx' Ha' Hm'];
      cbn [trace outcome fst snd].
    + eapply (RunAborted _ _ _ _ _ _ _ _ _ (p :: before) q after);
        [done|constructor; [split; tauto|done]|done|..];
        rewrite ?matcherErred_app, ?auditCalls_app, ?metricCalls_app,
          ?Hx, ?Hx', ?Ha, ?Ha', ?Hm, ?Hm'; done.
    + eapply (RunDenied _ _ _ _ _ _ _ _ (p :: before) d after);
        [done|constructor; [split; tauto|done]|done|done|..];
        rewrite ?matcherErred_app, ?auditCalls_app, ?metricCalls_app,
          ?effectChecked_app, ?Hx, ?Hx', ?Ha, ?Ha', ?Hm, ?Hm', ?He;
        [done|by exists ds|done|done].
    + apply RunDefaultDenied; [done|by constructor|..];
        rewrite ?matcherErred_app, ?auditCalls_app, ?metricCalls_app,
          ?effectChecked_app, ?Hx, ?Hx', ?Ha, ?Ha', ?Hm, ?Hm', ?He, ?He';
        done.
    + apply RunGranted; [constructor; [split; tauto|done]| |..].
      { intros Hal. destruct (Hex Hal) as (q & Hq & Hfq & Haq).
        exists q. split; [by apply list_elem_of_further|done]. }
      all: rewrite ?matcherErred_app, ?auditCalls_app, ?metricCalls_app,
          ?effectChecked_app, ?Hx, ?Hx', ?Ha, ?Ha', ?Hm, ?Hm', ?He;
        done.
  - (* p fully matches and denies *)
    unfold ret. cbn [fst snd]. rewrite app_nil_r.
    eapply (RunDenied _ _ _ _ _ _ _ _ [] p todo); try done.
    + exists []. by rewrite He.
    + by rewrite Ha, He.
  - (* p fully matches and allows *)
    destruct (IH true (deciders ++ [p]))
      as [t' err before q after cause -> Hbefore Hq Hx' Ha' Hm'
         |t' before d after -> Hbefore Hd Hdeny Hx' [ds He'] Ha' Hm'
         |t' Hal Htodo Hx' He' Ha' Hm'
         |t' Htodo Hex Hx' Ha' Hm'];
      cbn [trace outcome fst snd]; [| |done|].
    + eapply (RunAborted _ _ _ _ _ _ _ _ _ (p :: before) q after);
        [done|constructor; [|done]|done|..].
      { split; [by intros ?%(matchFails_not_fullyMatches _ ctx)|].
        intros [_ ?]; congruence. }
      all: rewrite ?matcherErred_app, ?auditCalls_app, ?metricCalls_app,
          ?Hx, ?Hx', ?Ha, ?Ha', ?Hm, ?Hm'; done.
    + eapply (RunDenied _ _ _ _ _ _ _ _ (p :: before) d after);
        [done|constructor; [|done]|done|done|..].
      { split; [by intros ?%(matchFails_not_fullyMatches _ ctx)|].
        intros [_ ?]; congruence. }
      all: rewrite ?matcherErred_app, ?auditCalls_app, ?metricCalls_app,
          ?effectChecked_app, ?Hx, ?Hx', ?Ha, ?Ha', ?Hm, ?Hm', ?He, ?He'.
      * done.
      * by exists (p :: ds).
      * by rewrite <-app_assoc.
      * done.
    + apply RunGranted; [constructor; [|done]| |..].
      { split; [by intros ?%(matchFails_not_fullyMatches _ ctx)|].
        intros [_ ?]; congruence. }
      { intros _. exists p. split; [apply list_elem_of_here|done]. }
      all: rewrite ?matcherErred_app, ?auditCalls_app, ?metricCalls_app,
          ?effectChecked_app, ?Hx, ?Hx', ?Ha, ?Ha', ?Hm, ?Hm', ?He;
        rewrite <-?app_assoc; done.
Qed.
End Loop.

(** ** [lazyInit] and the entry point *)

Lemma runOf_policiesLoop g l ctx r policies :
  runOf g l ctx r policies
  = policiesLoop (lazyInit g l).2 ctx r policies false [] policies.
Proof. unfold runOf, DoPoliciesAllow. by destruct (lazyInit g l). Qed.

(** The first [lazyInit] of the process leaves no collaborator unset. *)
Lemma lazyInit_first g l :
  lazyInitOnce g = false →
  ∃ m, wired (lazyInit g l).2 m.
Proof.
  intros Hg. unfold lazyInit, Once_Do, wired. rewrite Hg. cbn.
  destruct (Matcher l), (AuditLogger l), (Metric l); eauto 10.
Qed.

(** Any later [lazyInit] changes nothing, whichever engine it is called on. *)
Lemma lazyInit_later g l :
  lazyInitOnce g = true → lazyInit g l = (g, l).
Proof.
  intros Hg. unfold lazyInit, Once_Do, setOnce. rewrite Hg.
  destruct g; cbn in *; by subst.
Qed.

Lemma lazyInit_sets_once g l : lazyInitOnce (lazyInit g l).1 = true.
Proof. unfold lazyInit, Once_Do. by destruct (lazyInitOnce g) eqn:Hg. Qed.

Lemma DoPoliciesAllow_cases g l m ctx r policies :
  ready g l m →
  RunCase m ctx r policies false [] policies (runOf g l ctx r policies).
Proof.
  intros Hready. rewrite runOf_policiesLoop.
  by apply policiesLoop_cases.
Qed.

(** Two ways of cutting one list around an element each. *)
Lemma cut_twice {A} (xs ys xs' ys' : list A) x y :
  xs ++ x :: ys = xs' ++ y :: ys' → x ∈ xs' ∨ x = y ∨ y ∈ xs.
Proof.
  revert xs'. induction xs as [|z xs IH]; intros [|z' xs'] Heq;
    cbn in Heq; injection Heq as -> Heq.
  - by right; left.
  - left. apply list_elem_of_here.
  - right; right. apply list_elem_of_here.
  - destruct (IH _ Heq) as [?|[?|?]]; [left|by right; left|right; right];
      by apply list_elem_of_further.
Qed.

(** ** Deny override *)

(** C1 (amended): a fully-matching deny policy anywhere in the candidate
    list keeps [DoPoliciesAllow] from returning nil, whatever stands before
    or after it; and if no [Matches] call fails on a policy listed before
    it, [DoPoliciesAllow] returns [ErrRequestForcefullyDenied] (with its
    stack). *)
Theorem deny_overrides g l m ctx r before d after :
  ready g l m →
  fullyMatches m ctx r d →
  AllowAccess d = false →
  (∃ err, outcome (runOf g l ctx r (before ++ d :: after)) = Ok (Some err))
  ∧ (Forall (λ p, ¬ matchFails m r p) before →
     outcome (runOf g l ctx r (before ++ d :: after))
     = Ok (Some (WithStack ErrRequestForcefullyDenied))).
Proof.
  intros Hready Hd Hdeny.
  assert (d ∈ before ++ d :: after) as Hin.
  { apply elem_of_app. right. apply list_elem_of_here. }
  destruct (DoPoliciesAllow_cases g l m ctx r (before ++ d :: after) Hready)
    as [t err before' q after' cause Hcut Hbefore Hq _ _ _
       |t before' d' after' _ _ _ _ _ _ _ _
       |t _ Htodo _ _ _ _
       |t Htodo _ _ _ _]; cbn [outcome snd].
  - split; [by eexists|]. intros Hnf. exfalso.
    symmetry in Hcut. apply cut_twice in Hcut as [Hqb|[->|Hdb]].
    + rewrite Forall_forall in Hnf. by apply (Hnf q).
    + by apply (matchFails_not_fullyMatches _ ctx) in Hq.
    + rewrite Forall_forall in Hbefore. by apply (Hbefore d Hdb).
  - split; [by eexists|done].
  - exfalso. rewrite Forall_forall in Htodo. by apply (Htodo d Hin).
  - exfalso. rewrite Forall_forall in Htodo. by apply (Htodo d Hin).
Qed.

(** ** Audit logging *)

(** C2 (amended): every run of [DoPoliciesAllow] returns, and makes exactly
    one audit-logger call unless a [Matches] call failed: the granted call
    when it returns nil and the rejected call when it returns an error, with
    the full candidate list and the policies whose effect was read. When a
    [Matches] call failed it returns an error and makes no audit-logger
    call. *)
Theorem audit_once_unless_matcher_failed g l m ctx r policies :
  ready g l m →
  ∃ t res,
    runOf g l ctx r policies = (t, Ok res)
    ∧ (matcherErred t = true → is_Some res ∧ auditCalls t = [])
    ∧ (matcherErred t = false →
       auditCalls t = [auditFor res ctx r policies (effectChecked t)]).
Proof.
  intros Hready.
  destruct (DoPoliciesAllow_cases g l m ctx r policies Hready)
    as [t err before' q after' cause _ _ _ Hx Ha _
       |t before' d' after' _ _ _ _ Hx _ Ha _
       |t _ _ Hx He Ha _
       |t _ _ Hx Ha _];
    exists t; eexists; (split; [done|]); rewrite Hx, ?Ha; split; try done.
  intros _. cbn. by rewrite He.
Qed.

(** ** Default deny *)

(** C5 (amended): if every policy of the candidate list is skipped (no
    [Matches] call fails and no policy fully matches; the empty list is
    one such list), [DoPoliciesAllow] notifies Metric of no match with a
    [go] statement, calls the audit logger with the rejected outcome, the
    full candidate list and no decider, and returns [ErrRequestDenied]
    (with its stack). *)
Theorem default_deny g l m ctx r policies :
  ready g l m →
  Forall (skipped m ctx r) policies →
  ∃ t,
    runOf g l ctx r policies = (t, Ok (Some (WithStack ErrRequestDenied)))
    ∧ metricCalls t = [(GoStmt, RequestNoMatch r)]
    ∧ auditCalls t = [LogRejectedAccessRequest ctx r policies []].
Proof.
  intros Hready Hskip.
  destruct (DoPoliciesAllow_cases g l m ctx r policies Hready)
    as [t err before' q after' cause -> _ Hq _ _ _
       |t before' d' after' -> _ Hd _ _ _ _ _
       |t _ _ _ _ Ha Hm
       |t _ Hex _ _ _].
  - apply Forall_app in Hskip as [_ [[Hnf _] _]%Forall_cons]. done.
  - apply Forall_app in Hskip as [_ [[_ Hnm] _]%Forall_cons]. done.
  - by exists t.
  - destruct (Hex eq_refl) as (q & Hq & Hfq & _).
    rewrite Forall_forall in Hskip. by destruct (Hskip q Hq).
Qed.

(** C9: when [DoPoliciesAllow] returns [ErrRequestDenied] (with its stack),
    every rejected call the audit logger received has an empty decider
    list; and unless a [Matches] call failed with that very error, the audit
    logger received exactly one call: rejected, with the full candidate list
    and no decider. *)
Theorem request_denied_has_no_decider g l m ctx r policies :
  ready g l m →
  outcome (runOf g l ctx r policies) = Ok (Some (WithStack ErrRequestDenied)) →
  (∀ ctx' r' pool ds,
     LogRejectedAccessRequest ctx' r' pool ds
       ∈ auditCalls (trace (runOf g l ctx r policies)) → ds = [])
  ∧ (matcherErred (trace (runOf g l ctx r policies)) = false →
     auditCalls (trace (runOf g l ctx r policies))
     = [LogRejectedAccessRequest ctx r policies []]).
Proof.
  intros Hready.
  destruct (DoPoliciesAllow_cases g l m ctx r policies Hready)
    as [t err before' q after' cause _ _ _ Hx Ha _
       |t before' d' after' _ _ _ _ _ _ _ _
       |t _ _ _ _ Ha _
       |t _ _ _ _ _];
    cbn [outcome trace fst snd]; intros Hres; simplify_eq.
  - rewrite Ha, Hx. split; [|done]. by intros ???? ?%elem_of_nil.
  - rewrite Ha. split; [|done].
    intros ???? Hin%list_elem_of_singleton. by simplify_eq.
Qed.

(** ** Metric dispatch *)

(** C8 (what the code does): when [DoPoliciesAllow] returns nil, its one
    call to Metric is [RequestAllowedBy], made in place (line 139 has no
    [go]): the decision is returned only after that call has returned. *)
Theorem granted_metric_called_in_place g l m ctx r policies :
  ready g l m →
  outcome (runOf g l ctx r policies) = Ok None →
  metricCalls (trace (runOf g l ctx r policies))
  = [(InPlace,
      RequestAllowedBy r (effectChecked (trace (runOf g l ctx r policies))))].
Proof.
  intros Hready.
  destruct (DoPoliciesAllow_cases g l m ctx r policies Hready)
    as [t err before' q after' cause _ _ _ _ _ _
       |t before' d' after' _ _ _ _ _ _ _ _
       |t _ _ _ _ _ _
       |t _ _ _ _ Hm];
    cbn [outcome trace fst snd]; intros Hres; by simplify_eq.
Qed.

(** ** Conditions *)

Lemma forallb_Permutation {A} (f : A → bool) (xs ys : list A) :
  xs ≡ₚ ys → forallb f xs = forallb f ys.
Proof.
  induction 1 as [|x xs ys _ IH|x y xs|xs ys zs _ IH1 _ IH2]; cbn.
  - done.
  - by rewrite IH.
  - by destruct (f x), (f y).
  - by rewrite IH1.
Qed.

Lemma passesConditions_outcome ctx p r :
  outcome (passesConditions ctx p r)
  = Ok (forallb (holds ctx r) (GetConditions p)).
Proof.
  unfold passesConditions.
  by destruct (rangeConditions_spec ctx r (GetConditions p)) as (n & -> & _).
Qed.

(** C10: [passesConditions] returns the conjunction of [Fulfills] over all
    (key, condition) pairs of the policy, so two policies whose condition
    entries are permutations of each other (one condition map visited in two
    orders) get the same result. *)
Theorem passesConditions_order_irrelevant ctx r p p' :
  GetConditions p ≡ₚ GetConditions p' →
  outcome (passesConditions ctx p r)
  = Ok (forallb
          (λ kc, Fulfills kc.2 ctx (Context r !!! kc.1) r)
          (GetConditions p))
  ∧ outcome (passesConditions ctx p' r) = outcome (passesConditions ctx p r).
Proof.
  intros Hperm. rewrite !passesConditions_outcome. split; [done|].
  f_equal. symmetry. by apply forallb_Permutation.
Qed.

(** What a condition evaluation found in a trace says. *)
Lemma fulfills_in_trace ctx r (cs : list (string * Condition))
    key c v r' pass :
  EvFulfills key c v r' pass ∈ (fulfillsEvent ctx r <$> cs) →
  (key, c) ∈ cs
  ∧ v = default VNil (Context r !! key)
  ∧ r' = r
  ∧ pass = Fulfills c ctx v r.
Proof.
  intros ([key' c'] & Heq & Hkc)%list_elem_of_fmap.
  unfold fulfillsEvent, holds in Heq. cbn in Heq. simplify_eq.
  by rewrite lookup_total_alt.
Qed.

(** Closes a goal with a hypothesis [H] that places an event in a list of
    events of other kinds. *)
Ltac not_among H :=
  exfalso; apply list_elem_of_In in H; cbn in H; intuition congruence.

(** ** Order of the checks *)

Lemma passed_fulfills ctx r (cs : list (string * Condition)) :
  forallb (holds ctx r) cs = true →
  Forall (λ e, passed e = true) (fulfillsEvent ctx r <$> cs).
Proof.
  induction cs as [|kc cs IH]; cbn [forallb]; [by constructor|].
  intros [Hkc Hcs]%andb_prop. rewrite fmap_cons. constructor; [|by apply IH].
  unfold fulfillsEvent. by rewrite Hkc.
Qed.

(** In one pass through the loop body the checks made are an initial
    stretch of [checksInOrder], every check but the last one passed, and
    the last one decides what the pass ends in. *)
Lemma loopBody_checks_in_order l m ctx r policies allowed deciders p :
  wired l m →
  ∃ before decisive,
    checks (trace (loopBody l ctx r policies allowed deciders p))
    = before ++ [decisive]
    ∧ before ++ [decisive] `prefix_of` checksInOrder m ctx r p
    ∧ Forall (λ e, passed e = true) before
    ∧ decides allowed deciders p decisive
        (outcome (loopBody l ctx r policies allowed deciders p)).
Proof.
  intros Hwired. unfold checksInOrder.
  destruct (m p (GetActions p) (Action r)) as [ab [ae|]] eqn:Ha.
  { rewrite (loopBody_action_error _ _ Hwired _ _ _ _ _ _ _ _ Ha).
    exists [], (EvMatches p (GetActions p) (Action r) (ab, Some ae)).
    repeat split; [by eexists|by constructor|]. cbn. destruct ab; by right. }
  destruct ab; cycle 1.
  { rewrite (loopBody_action_nomatch _ _ Hwired _ _ _ _ _ _ Ha).
    exists [], (EvMatches p (GetActions p) (Action r) (false, None)).
    repeat split; [by eexists|by constructor]. }
  destruct (m p (GetSubjects p) (Subject r)) as [sb [se|]] eqn:Hs.
  { rewrite (loopBody_subject_error _ _ Hwired _ _ _ _ _ _ _ _ Ha Hs).
    exists [EvMatches p (GetActions p) (Action r) (true, None)],
      (EvMatches p (GetSubjects p) (Subject r) (sb, Some se)).
    repeat split; [by eexists|by repeat constructor|].
    cbn. destruct sb; by left. }
  destruct sb; cycle 1.
  { rewrite (loopBody_subject_nomatch _ _ Hwired _ _ _ _ _ _ Ha Hs).
    exists [EvMatches p (GetActions p) (Action r) (true, None)],
      (EvMatches p (GetSubjects p) (Subject r) (false, None)).
    repeat split; [by eexists|by repeat constructor]. }
  destruct (m p (GetResources p) (Resource r)) as [rb [re|]] eqn:Hr.
  { rewrite (loopBody_resource_error _ _ Hwired _ _ _ _ _ _ _ _ Ha Hs Hr).
    exists [EvMatches p (GetActions p) (Action r) (true, None);
            EvMatches p (GetSubjects p) (Subject r) (true, None)],
      (EvMatches p (GetResources p) (Resource r) (rb, Some re)).
    repeat split; [by eexists|by repeat constructor|].
    cbn. destruct rb; by right. }
  destruct rb; cycle 1.
  { rewrite (loopBody_resource_nomatch _ _ Hwired _ _ _ _ _ _ Ha Hs Hr).
    exists [EvMatches p (GetActions p) (Action r) (true, None);
            EvMatches p (GetSubjects p) (Subject r) (true, None)],
      (EvMatches p (GetResources p) (Resource r) (false, None)).
    repeat split; [by eexists|by repeat constructor]. }
  assert (patternsMatch m r p) as Hpm by done.
  destruct (loopBody_patterns_match _ _ Hwired ctx r policies allowed
              deciders p Hpm) as (n & Hn & Hstop & ->).
  cbn zeta.
  set (matches := [EvMatches p (GetActions p) (Action r) (true, None);
                   EvMatches p (GetSubjects p) (Subject r) (true, None);
                   EvMatches p (GetResources p) (Resource r) (true, None)]).
  assert (checks matches = matches) as Hcm by done.
  assert (Forall (λ e, passed e = true) matches) as Hpm'
    by by repeat constructor.
  destruct (forallb (holds ctx r) (GetConditions p)) eqn:Hc; cbn [negb].
  - (* the conditions hold: the effect decides *)
    rewrite (Hn eq_refl).
    exists (matches ++ (fulfillsEvent ctx r <$> GetConditions p)),
      (EvAllowAccess p (AllowAccess p)).
    destruct (AllowAccess p); cbn [negb trace outcome fst snd];
      rewrite !checks_app, checks_fulfills, Hcm;
      (repeat split;
       [by rewrite <-app_assoc
       |apply Forall_app; split; [done|by apply passed_fulfills]]).
  - (* a condition does not hold *)
    destruct (Hstop eq_refl) as (pre & kc & Hpre & Hok & Hkc).
    exists (matches ++ (fulfillsEvent ctx r <$> pre)), (fulfillsEvent ctx r kc).
    cbn [trace outcome fst snd].
    rewrite checks_app, checks_fulfills, Hcm, Hpre, fmap_app, app_assoc.
    repeat split.
    + rewrite <-(take_drop n (GetConditions p)), Hpre, !fmap_app.
      rewrite <-!app_assoc. do 2 apply prefix_app. cbn.
      apply prefix_cons, prefix_nil.
    + apply Forall_app; split; [done|by apply passed_fulfills].
    + unfold fulfillsEvent. by rewrite Hkc.
Qed.

(** ** Policies that the loop passes over *)

Section PassedOver.
Variables (l : Ladon) (m : matcher).
Hypothesis Hwired : wired l m.
Variables (ctx : context_Context) (r : Request).

(** The candidate list reaches the loop body only through the audit call of
    a deny; a pass that makes none is the same for every candidate list. *)
Lemma loopBody_policies_irrelevant policies policies' allowed deciders p :
  passedOver m ctx r p →
  loopBody l ctx r policies allowed deciders p
  = loopBody l ctx r policies' allowed deciders p.
Proof.
  intros [Hnf Hnd].
  destruct (m p (GetActions p) (Action r)) as [ab [ae|]] eqn:Ha.
  { destruct Hnf. left. by rewrite Ha. }
  destruct ab; cycle 1.
  { by rewrite !(loopBody_action_nomatch _ _ Hwired _ _ _ _ _ _ Ha). }
  destruct (m p (GetSubjects p) (Subject r)) as [sb [se|]] eqn:Hs.
  { destruct Hnf. right; left. by rewrite Hs. }
  destruct sb; cycle 1.
  { by rewrite !(loopBody_subject_nomatch _ _ Hwired _ _ _ _ _ _ Ha Hs). }
  destruct (m p (GetResources p) (Resource r)) as [rb [re|]] eqn:Hr.
  { destruct Hnf. right; right. by rewrite Hr. }
  destruct rb; cycle 1.
  { by rewrite !(loopBody_resource_nomatch _ _ Hwired _ _ _ _ _ _ Ha Hs Hr). }
  unfold loopBody.
  run_call Hwired. rewrite Ha. cbn iota.
  run_call Hwired. rewrite Hs. cbn iota.
  run_call Hwired. rewrite Hr. cbn iota.
  pose proof (passesConditions_outcome ctx p r) as Hout.
  destruct (passesConditions ctx p r) as [tc o]. cbn in Hout. subst o.
  rewrite !bind_Ok.
  destruct (forallb (holds ctx r) (GetConditions p)) eqn:Hc; cbn [negb];
    [|done].
  repeat run_call Hwired.
  destruct (AllowAccess p) eqn:He; [done|].
  destruct Hnd. by split; [split; [|apply forallb_holds_conditionsHold]|].
Qed.

(** A stretch of policies that are all passed over leaves a trace and
    values of [allowed] and [deciders] that depend neither on the candidate
    list nor on the policies after the stretch. *)
Lemma policiesLoop_passedOver before :
  Forall (passedOver m ctx r) before →
  ∀ allowed deciders, ∃ t allowed' deciders', ∀ policies rest,
    policiesLoop l ctx r policies allowed deciders (before ++ rest)
    = (t ++ trace (policiesLoop l ctx r policies allowed' deciders' rest),
       outcome (policiesLoop l ctx r policies allowed' deciders' rest)).
Proof.
  induction 1 as [|p before Hp _ IH]; intros allowed deciders.
  { exists [], allowed, deciders. intros. apply M_eta. }
  assert (∃ tp a1 ds1,
            loopBody l ctx r [] allowed deciders p = (tp, Ok (Next a1 ds1)))
    as (tp & a1 & ds1 & Hbody).
  { destruct Hp as [Hnf Hnd].
    destruct (loopBody_cases l m Hwired ctx r [] allowed deciders p);
      [done|by eauto|by destruct Hnd|by eauto]. }
  destruct (IH a1 ds1) as (t & allowed' & deciders' & Hrest).
  exists (tp ++ t), allowed', deciders'. intros policies rest.
  cbn [app policiesLoop].
  rewrite (loopBody_policies_irrelevant policies [] _ _ _ Hp), Hbody.
  rewrite bind_Ok, Hrest. cbn [trace outcome fst snd].
  by rewrite app_assoc.
Qed.
End PassedOver.

(** ** Errors of the matcher *)

(** X16: when the run reaches a policy (every policy before it is passed
    over) and the action [Matches] call of that policy fails, whatever
    boolean comes with the error, [DoPoliciesAllow] makes no further check,
    reports the matcher's error as it is to Metric with a [go] statement,
    and returns that error wrapped by [errors.WithStack]; the trace is the
    same whatever policies follow. *)
Lemma action_error_returned_wrapped g l m ctx r before p b err :
  ready g l m →
  Forall (passedOver m ctx r) before →
  m p (GetActions p) (Action r) = (b, Some err) →
  ∃ t, ∀ after,
    runOf g l ctx r (before ++ p :: after)
    = (t ++ [EvMatches p (GetActions p) (Action r) (b, Some err);
             EvMetric GoStmt (RequestProcessingError r (Some p) err)],
       Ok (Some (WithStack err))).
Proof.
  intros Hready Hbefore Ha.
  destruct (policiesLoop_passedOver _ _ Hready ctx r before Hbefore false [])
    as (t & allowed' & deciders' & Hrun).
  exists t. intros after. rewrite runOf_policiesLoop, Hrun.
  cbn [policiesLoop].
  rewrite (loopBody_action_error _ _ Hready _ _ _ _ _ _ _ _ Ha).
  by rewrite bind_Ok.
Qed.

(** X17: when the run reaches a policy whose action and subject sets
    match and the resource [Matches] call fails, [DoPoliciesAllow]
    evaluates no condition and reads no effect, reports the matcher's error
    as it is to Metric with a [go] statement, and returns that error
    wrapped by [errors.WithStack]; the trace is the same whatever policies
    follow. *)
Lemma resource_error_returned_wrapped g l m ctx r before p b err :
  ready g l m →
  Forall (passedOver m ctx r) before →
  m p (GetActions p) (Action r) = (true, None) →
  m p (GetSubjects p) (Subject r) = (true, None) →
  m p (GetResources p) (Resource r) = (b, Some err) →
  ∃ t, ∀ after,
    runOf g l ctx r (before ++ p :: after)
    = (t ++ [EvMatches p (GetActions p) (Action r) (true, None);
             EvMatches p (GetSubjects p) (Subject r) (true, None);
             EvMatches p (GetResources p) (Resource r) (b, Some err);
             EvMetric GoStmt (RequestProcessingError r (Some p) err)],
       Ok (Some (WithStack err))).
Proof.
  intros Hready Hbefore Ha Hs Hr.
  destruct (policiesLoop_passedOver _ _ Hready ctx r before Hbefore false [])
    as (t & allowed' & deciders' & Hrun).
  exists t. intros after. rewrite runOf_policiesLoop, Hrun.
  cbn [policiesLoop].
  rewrite (loopBody_resource_error _ _ Hready _ _ _ _ _ _ _ _ Ha Hs Hr).
  by rewrite bind_Ok.
Qed.

(** C4 (what the code does on the subject dimension): when the run reaches
    a policy (every policy before it is passed over) and the subject
    [Matches] call of that policy fails, [DoPoliciesAllow] reports the
    error to Metric with a [go] statement and ends there, with the same
    trace whatever policies follow, so no call is made for a later policy;
    but it returns the matcher's error as it is (line 97), not wrapped by
    [errors.WithStack] as the action and resource branches do. *)
Theorem subject_error_returned_unwrapped g l m ctx r before p b err :
  ready g l m →
  Forall (passedOver m ctx r) before →
  m p (GetActions p) (Action r) = (true, None) →
  m p (GetSubjects p) (Subject r) = (b, Some err) →
  ∃ t, ∀ after,
    runOf g l ctx r (before ++ p :: after)
    = (t ++ [EvMatches p (GetActions p) (Action r) (true, None);
             EvMatches p (GetSubjects p) (Subject r) (b, Some err);
             EvMetric GoStmt (RequestProcessingError r (Some p) err)],
       Ok (Some err)).
Proof.
  intros Hready Hbefore Ha Hs.
  destruct (policiesLoop_passedOver _ _ Hready ctx r before Hbefore false [])
    as (t & allowed' & deciders' & Hrun).
  exists t. intros after. rewrite runOf_policiesLoop, Hrun.
  cbn [policiesLoop].
  rewrite (loopBody_subject_error _ _ Hready _ _ _ _ _ _ _ _ Ha Hs).
  by rewrite bind_Ok.
Qed.

(** ** Default wiring *)

(** C3 (what the code does): [lazyInitOnce] is one variable for the whole
    package, so once [lazyInit] has run for any engine [first], it does
    nothing for another engine: an engine built with no collaborator keeps
    its nil fields, and [DoPoliciesAllow] on it panics on the first call
    into a collaborator, whatever the candidate list. *)
Theorem lazyInit_once_shared_by_all_engines g first ctx r policies :
  lazyInit (lazyInit g first).1 emptyLadon
  = ((lazyInit g first).1, emptyLadon)
  ∧ outcome (runOf (lazyInit g first).1 emptyLadon ctx r policies) = Panic.
Proof.
  pose proof (lazyInit_later _ emptyLadon (lazyInit_sets_once g first))
    as Hlater.
  split; [done|].
  rewrite runOf_policiesLoop, Hlater. by destruct policies.
Qed.

(** * Further properties of the code *)

(** ** [lazyInit] *)

Lemma lazyInit_Manager g l : Manager (lazyInit g l).2 = Manager l.
Proof. unfold lazyInit, Once_Do. by destruct (lazyInitOnce g). Qed.

(** X1: the first [lazyInit] of the process keeps every collaborator the
    caller supplied, puts the package default in each nil field, leaves the
    manager alone and marks the once as done. *)
Theorem lazyInit_first_use_fills_only_nil_fields g l :
  lazyInitOnce g = false →
  Matcher (lazyInit g l).2 = Some (default (DefaultMatcher g) (Matcher l))
  ∧ AuditLogger (lazyInit g l).2
    = Some (default (DefaultAuditLogger g) (AuditLogger l))
  ∧ Metric (lazyInit g l).2 = Some (default (DefaultMetric g) (Metric l))
  ∧ Manager (lazyInit g l).2 = Manager l
  ∧ lazyInitOnce (lazyInit g l).1 = true.
Proof.
  intros Hg. unfold lazyInit, Once_Do. rewrite Hg. cbn.
  by destruct (Matcher l), (AuditLogger l), (Metric l).
Qed.

(** X2: [lazyInit] is idempotent: a second call, on the engine and the
    package state the first call left, changes neither. *)
Theorem lazyInit_idempotent g l :
  lazyInit (lazyInit g l).1 (lazyInit g l).2 = lazyInit g l.
Proof.
  rewrite (lazyInit_later _ _ (lazyInit_sets_once g l)).
  by destruct (lazyInit g l).
Qed.

(** X14: an engine built with its matcher, audit logger and metric all set
    is left as it is by [lazyInit], whether or not the package-level once
    has already run: the defaults never replace a collaborator that the
    caller supplied. *)
Theorem lazyInit_keeps_configured_engine g l m a mt :
  Matcher l = Some m →
  AuditLogger l = Some a →
  Metric l = Some mt →
  (lazyInit g l).2 = l ∧ ready g l m.
Proof.
  intros Hm Ha Hmt.
  assert ((lazyInit g l).2 = l) as Hsame.
  { unfold lazyInit, Once_Do. destruct (lazyInitOnce g); [done|].
    destruct l; cbn in *. by subst. }
  split; [done|]. unfold ready. rewrite Hsame, Hm, Ha, Hmt. by eauto.
Qed.

(** ** [IsAllowed] *)

Lemma DoPoliciesAllow_after_lazyInit g l ctx r policies :
  DoPoliciesAllow (lazyInit g l).1 (lazyInit g l).2 ctx r policies
  = (lazyInit g l, runOf g l ctx r policies).
Proof.
  rewrite runOf_policiesLoop. unfold DoPoliciesAllow.
  rewrite (lazyInit_later _ _ (lazyInit_sets_once g l)).
  by destruct (lazyInit g l).
Qed.

(** X3: when the manager finds candidates without error, [IsAllowed] is the
    lookup followed by [DoPoliciesAllow] on the candidates found: the same
    result, the same calls after the lookup, and the same state of the
    engine and the package. *)
Theorem IsAllowed_is_lookup_then_DoPoliciesAllow g l mg ctx r policies :
  Manager l = Some mg →
  mg ctx r = (policies, None) →
  IsAllowed g l ctx r
  = (lazyInit g l,
     (EvFindRequestCandidates ctx r :: trace (runOf g l ctx r policies),
      outcome (runOf g l ctx r policies))).
Proof.
  intros Hmg Hfound.
  pose proof (lazyInit_Manager g l) as HM.
  pose proof (DoPoliciesAllow_after_lazyInit g l ctx r policies) as HD.
  unfold IsAllowed. destruct (lazyInit g l) as [g' l'] eqn:Hinit.
  cbn [fst snd] in HM, HD.
  unfold Manager_FindRequestCandidates. rewrite HM, Hmg. cbn.
  rewrite Hfound, HD. cbn.
  by destruct (runOf g l ctx r policies) as [t o].
Qed.

(** X4: when the manager fails, [IsAllowed] returns the manager's error as
    it is, reports it to Metric with a [go] statement and a nil policy, and
    does nothing else: no policy is looked at and no audit call is made,
    whatever candidates came with the error. *)
Theorem IsAllowed_manager_error g l mg ctx r policies err :
  Manager l = Some mg →
  mg ctx r = (policies, Some err) →
  is_Some (Metric (lazyInit g l).2) →
  (IsAllowed g l ctx r).2
  = ([EvFindRequestCandidates ctx r;
      EvMetric GoStmt (RequestProcessingError r None err)],
     Ok (Some err)).
Proof.
  intros Hmg Hfound [mt Hmt].
  pose proof (lazyInit_Manager g l) as HM.
  unfold IsAllowed. destruct (lazyInit g l) as [g' l'] eqn:Hinit.
  cbn [fst snd] in HM, Hmt.
  unfold Manager_FindRequestCandidates, Metric_call. rewrite HM, Hmg. cbn.
  by rewrite Hfound, Hmt.
Qed.

(** X5: there is no default manager: on an engine whose [Manager] is nil,
    [IsAllowed] panics before any call is made, on first use too. *)
Theorem IsAllowed_without_manager_panics g l ctx r :
  Manager l = None →
  (IsAllowed g l ctx r).2 = ([], Panic).
Proof.
  intros Hmg. pose proof (lazyInit_Manager g l) as HM.
  unfold IsAllowed. destruct (lazyInit g l) as [g' l'].
  cbn [fst snd] in HM. unfold Manager_FindRequestCandidates.
  by rewrite HM, Hmg.
Qed.

(** ** [DoPoliciesAllow]: when access is granted *)

(** X6: [DoPoliciesAllow] returns nil exactly when no [Matches] call fails
    on a policy of the list, no policy of the list is a fully-matching deny
    policy, and some policy of the list fully matches with allow effect. *)
Theorem granted_iff g l m ctx r policies :
  ready g l m →
  outcome (runOf g l ctx r policies) = Ok None
  ↔ Forall (passedOver m ctx r) policies
    ∧ ∃ q, q ∈ policies ∧ fullyMatches m ctx r q ∧ AllowAccess q = true.
Proof.
  intros Hready.
  destruct (DoPoliciesAllow_cases g l m ctx r policies Hready)
    as [t err before q after cause -> _ Hq _ _ _
       |t before d after -> _ Hd Hdeny _ _ _ _
       |t _ Hskip _ _ _ _
       |t Hpass Hex _ _ _];
    cbn [outcome snd].
  - split; [done|]. intros [Hall _].
    apply Forall_app in Hall as [_ [[Hnf _] _]%Forall_cons]. done.
  - split; [done|]. intros [Hall _].
    apply Forall_app in Hall as [_ [[_ Hnd] _]%Forall_cons]. by destruct Hnd.
  - split; [done|]. intros [_ (q & Hq & Hfq & _)].
    rewrite Forall_forall in Hskip. by destruct (Hskip q Hq).
  - split; [|done]. intros _. split; [done|]. by apply Hex.
Qed.

(** ** [DoPoliciesAllow]: the Metric call *)

(** X11: every run of [DoPoliciesAllow] makes exactly one call to Metric,
    of the kind that goes with what the run returns: [RequestAllowedBy] in
    place for nil, and with a [go] statement [RequestDeniedBy] for a
    fully-matching deny policy of the list, [RequestNoMatch] for the default
    deny, [RequestProcessingError] for a policy of the list on which a
    [Matches] call failed. *)
Theorem one_metric_call_per_run g l m ctx r policies :
  ready g l m →
  ∃ t res,
    runOf g l ctx r policies = (t, Ok res)
    ∧ ((res = None
        ∧ metricCalls t = [(InPlace, RequestAllowedBy r (effectChecked t))])
       ∨ (res = Some (WithStack ErrRequestForcefullyDenied)
          ∧ ∃ d, d ∈ policies ∧ fullyMatches m ctx r d
              ∧ AllowAccess d = false
              ∧ metricCalls t = [(GoStmt, RequestDeniedBy r d)])
       ∨ (res = Some (WithStack ErrRequestDenied)
          ∧ metricCalls t = [(GoStmt, RequestNoMatch r)])
       ∨ (is_Some res
          ∧ ∃ p cause, p ∈ policies ∧ matchFails m r p
              ∧ metricCalls t
                = [(GoStmt, RequestProcessingError r (Some p) cause)])).
Proof.
  intros Hready.
  destruct (DoPoliciesAllow_cases g l m ctx r policies Hready)
    as [t err before q after cause -> _ Hq _ _ Hm
       |t before d after -> _ Hd Hdeny _ _ _ Hm
       |t _ _ _ _ _ Hm
       |t _ _ _ _ Hm];
    exists t; eexists; (split; [done|]).
  - right; right; right. split; [done|]. exists q, cause.
    split; [|done]. apply elem_of_app. right. apply list_elem_of_here.
  - right; left. split; [done|]. exists d.
    split; [|done]. apply elem_of_app. right. apply list_elem_of_here.
  - by right; right; left.
  - by left.
Qed.

(** ** [DoPoliciesAllow]: the order of the candidates *)

(** With no failing [Matches] call the result is one of three, by what the
    list holds. *)
Lemma run_without_matcher_failure g l m ctx r policies :
  ready g l m →
  Forall (λ p, ¬ matchFails m r p) policies →
  ((∃ d, d ∈ policies ∧ fullyMatches m ctx r d ∧ AllowAccess d = false)
   ∧ outcome (runOf g l ctx r policies)
     = Ok (Some (WithStack ErrRequestForcefullyDenied)))
  ∨ ((∀ d, d ∈ policies → fullyMatches m ctx r d → AllowAccess d = true)
     ∧ (∃ q, q ∈ policies ∧ fullyMatches m ctx r q)
     ∧ outcome (runOf g l ctx r policies) = Ok None)
  ∨ ((∀ p, p ∈ policies → ¬ fullyMatches m ctx r p)
     ∧ outcome (runOf g l ctx r policies)
       = Ok (Some (WithStack ErrRequestDenied))).
Proof.
  intros Hready Hnf.
  destruct (DoPoliciesAllow_cases g l m ctx r policies Hready)
    as [t err before q after cause -> _ Hq _ _ _
       |t before d after -> _ Hd Hdeny _ _ _ _
       |t _ Hskip _ _ _ _
       |t Hpass Hex _ _ _];
    cbn [outcome snd].
  - apply Forall_app in Hnf as [_ [Hnq _]%Forall_cons]. done.
  - left. split; [|done]. exists d. split; [|done].
    apply elem_of_app. right. apply list_elem_of_here.
  - right; right. split; [|done]. intros p Hp.
    rewrite Forall_forall in Hskip. by destruct (Hskip p Hp).
  - right; left. split; [|split; [|done]].
    + intros d Hd Hfd. rewrite Forall_forall in Hpass.
      destruct (Hpass d Hd) as [_ Hnd]. destruct (AllowAccess d); [done|].
      by destruct Hnd.
    + destruct (Hex eq_refl) as (q & ? & ? & _). by exists q.
Qed.

(** X10: when no [Matches] call fails on any candidate, the order of the
    candidates does not matter: two lists that are permutations of each
    other get the same result. *)
Theorem result_ignores_order_without_matcher_failure
    g l m ctx r policies policies' :
  ready g l m →
  Forall (λ p, ¬ matchFails m r p) policies →
  policies ≡ₚ policies' →
  outcome (runOf g l ctx r policies') = outcome (runOf g l ctx r policies).
Proof.
  intros Hready Hnf Hperm.
  assert (Forall (λ p, ¬ matchFails m r p) policies') as Hnf'
    by by rewrite <-Hperm.
  assert (∀ p, p ∈ policies' ↔ p ∈ policies) as Hin
    by (intros p; by rewrite Hperm).
  destruct (run_without_matcher_failure g l m ctx r policies Hready Hnf)
    as [[(d & Hd & Hfd & Hdd) ->]
       |[(Hallow & (q & Hq & Hfq) & ->)|[Hnone ->]]];
    destruct (run_without_matcher_failure g l m ctx r policies' Hready Hnf')
    as [[(d' & Hd' & Hfd' & Hdd') ->]
       |[(Hallow' & (q' & Hq' & Hfq') & ->)|[Hnone' ->]]];
    try done; exfalso.
  - pose proof (Hallow' d (proj2 (Hin d) Hd) Hfd). congruence.
  - exact (Hnone' d (proj2 (Hin d) Hd) Hfd).
  - pose proof (Hallow d' (proj1 (Hin d') Hd') Hfd'). congruence.
  - exact (Hnone' q (proj2 (Hin q) Hq) Hfq).
  - exact (Hnone d' (proj1 (Hin d') Hd') Hfd').
  - exact (Hnone q' (proj1 (Hin q') Hq') Hfq').
Qed.

(** ** [DoPoliciesAllow]: policies that do not match *)

Lemma outcome_bind {A B} (c : M A) (k : A → M B) :
  outcome (bind c k)
  = match outcome c with Ok a => outcome (k a) | Panic => Panic end.
Proof. destruct c as [t [a|]]; [by rewrite bind_Ok|done]. Qed.

Section OutcomeAndCandidates.
Variables (l : Ladon) (m : matcher).
Hypothesis Hwired : wired l m.
Variables (ctx : context_Context) (r : Request).

(** What a pass returns does not depend on the candidate list, which only
    goes to the audit logger. *)
Lemma loopBody_outcome_policies policies policies' allowed deciders p :
  outcome (loopBody l ctx r policies allowed deciders p)
  = outcome (loopBody l ctx r policies' allowed deciders p).
Proof.
  destruct (m p (GetActions p) (Action r)) as [ab [ae|]] eqn:Ha.
  { by rewrite !(loopBody_action_error _ _ Hwired _ _ _ _ _ _ _ _ Ha). }
  destruct ab; cycle 1.
  { by rewrite !(loopBody_action_nomatch _ _ Hwired _ _ _ _ _ _ Ha). }
  destruct (m p (GetSubjects p) (Subject r)) as [sb [se|]] eqn:Hs.
  { by rewrite !(loopBody_subject_error _ _ Hwired _ _ _ _ _ _ _ _ Ha Hs). }
  destruct sb; cycle 1.
  { by rewrite !(loopBody_subject_nomatch _ _ Hwired _ _ _ _ _ _ Ha Hs). }
  destruct (m p (GetResources p) (Resource r)) as [rb [re|]] eqn:Hr.
  { by rewrite
      !(loopBody_resource_error _ _ Hwired _ _ _ _ _ _ _ _ Ha Hs Hr). }
  destruct rb; cycle 1.
  { by rewrite
      !(loopBody_resource_nomatch _ _ Hwired _ _ _ _ _ _ Ha Hs Hr). }
  assert (patternsMatch m r p) as Hpm by done.
  destruct (loopBody_patterns_match _ _ Hwired ctx r policies allowed
              deciders p Hpm) as (n & _ & _ & ->).
  destruct (loopBody_patterns_match _ _ Hwired ctx r policies' allowed
              deciders p Hpm) as (n' & _ & _ & ->).
  cbn zeta.
  by destruct (forallb (holds ctx r) (GetConditions p)), (AllowAccess p).
Qed.

Lemma policiesLoop_outcome_policies policies policies' todo :
  ∀ allowed deciders,
    outcome (policiesLoop l ctx r policies allowed deciders todo)
    = outcome (policiesLoop l ctx r policies' allowed deciders todo).
Proof.
  induction todo as [|p todo IH]; intros allowed deciders.
  { cbn [policiesLoop]. destruct allowed.
    - by rewrite !(afterLoop_granted _ _ Hwired).
    - by rewrite !(afterLoop_denied _ _ Hwired). }
  cbn [policiesLoop]. rewrite !outcome_bind.
  rewrite (loopBody_outcome_policies policies policies').
  destruct (outcome (loopBody l ctx r policies' allowed deciders p))
    as [[allowed' deciders'|err]|]; [apply IH|done..].
Qed.

(** Taking a skipped policy out of the list of policies still to visit does
    not change what the loop returns. *)
Lemma policiesLoop_without_skipped policies policies' before p after :
  skipped m ctx r p →
  ∀ allowed deciders,
    outcome (policiesLoop l ctx r policies allowed deciders
               (before ++ p :: after))
    = outcome (policiesLoop l ctx r policies' allowed deciders
                 (before ++ after)).
Proof.
  intros [Hnf Hnm].
  induction before as [|q before IH]; intros allowed deciders.
  { cbn [app policiesLoop]. rewrite outcome_bind.
    destruct (loopBody_cases l m Hwired ctx r policies allowed deciders p);
      [done| |done..].
    cbn [outcome snd]. apply policiesLoop_outcome_policies. }
  cbn [app policiesLoop]. rewrite !outcome_bind.
  rewrite (loopBody_outcome_policies policies policies').
  destruct (outcome (loopBody l ctx r policies' allowed deciders q))
    as [[allowed' deciders'|err]|]; [apply IH|done..].
Qed.
End OutcomeAndCandidates.

(** X9: a policy that does not apply to the request never influences the
    decision: if no [Matches] call fails on it and it does not fully match
    (a pattern set does not match or a condition does not hold), the result
    is the same as for the list without it, whatever its effect and
    wherever it stands. *)
Theorem skipped_policy_is_irrelevant g l m ctx r before p after :
  ready g l m →
  skipped m ctx r p →
  outcome (runOf g l ctx r (before ++ p :: after))
  = outcome (runOf g l ctx r (before ++ after)).
Proof.
  intros Hready Hskip. rewrite !runOf_policiesLoop.
  by apply (policiesLoop_without_skipped _ _ Hready).
Qed.

(** ** [DoPoliciesAllow]: the deciders of a grant *)

Lemma matched_spec res : matched res = true ↔ res = (true, None).
Proof. destruct res as [[|] [err|]]; cbn; split; congruence. Qed.

Lemma fullyMatchesb_spec m ctx r p :
  Is_true (fullyMatchesb m ctx r p) ↔ fullyMatches m ctx r p.
Proof.
  unfold fullyMatchesb, fullyMatches, patternsMatch.
  rewrite !andb_True, !Is_true_true, !matched_spec,
    forallb_holds_conditionsHold.
  tauto.
Qed.

Section Deciders.
Variables (l : Ladon) (m : matcher).
Hypothesis Hwired : wired l m.
Variables (ctx : context_Context) (r : Request) (policies : Policies).

(** In a run that returns nil the effect was read of exactly the fully
    matching policies. *)
Lemma policiesLoop_granted_effectChecked (todo : list Policy) :
  ∀ allowed deciders,
  outcome (policiesLoop l ctx r policies allowed deciders todo) = Ok None →
  effectChecked (trace (policiesLoop l ctx r policies allowed deciders todo))
  = filter (fullyMatchesb m ctx r) todo.
Proof.
  induction todo as [|p todo IH]; intros allowed deciders.
  { cbn [policiesLoop]. destruct allowed.
    - by rewrite (afterLoop_granted _ _ Hwired).
    - by rewrite (afterLoop_denied _ _ Hwired). }
  cbn [policiesLoop].
  destruct (loopBody_cases l m Hwired ctx r policies allowed deciders p)
    as [t err cause _ _ _ _ _
       |t _ Hnm _ _ He _
       |t _ _ _ _ _ _
       |t Hfm _ _ _ He _];
    rewrite bind_Ok; cbn [trace outcome fst snd]; try done;
    intros Hres; rewrite effectChecked_app, He, (IH _ _ Hres).
  - rewrite filter_cons_False; [done|]. by rewrite fullyMatchesb_spec.
  - rewrite filter_cons_True; [done|]. by rewrite fullyMatchesb_spec.
Qed.
End Deciders.

(** X7: when [DoPoliciesAllow] returns nil, the deciders it hands to the
    audit logger and to Metric are exactly the fully-matching policies of
    the candidate list, in the order of the list; there is at least one,
    and each has allow effect. *)
Theorem granted_deciders g l m ctx r (policies : list Policy) :
  ready g l m →
  outcome (runOf g l ctx r policies) = Ok None →
  auditCalls (trace (runOf g l ctx r policies))
  = [LogGrantedAccessRequest ctx r policies
       (filter (fullyMatchesb m ctx r) policies)]
  ∧ metricCalls (trace (runOf g l ctx r policies))
    = [(InPlace,
        RequestAllowedBy r (filter (fullyMatchesb m ctx r) policies))]
  ∧ filter (fullyMatchesb m ctx r) policies ≠ []
  ∧ Forall (λ p, AllowAccess p = true)
      (filter (fullyMatchesb m ctx r) policies).
Proof.
  intros Hready Hres.
  assert (effectChecked (trace (runOf g l ctx r policies))
          = filter (fullyMatchesb m ctx r) policies) as Heff.
  { rewrite runOf_policiesLoop in *.
    by apply (policiesLoop_granted_effectChecked _ _ Hready). }
  revert Hres Heff.
  destruct (DoPoliciesAllow_cases g l m ctx r policies Hready)
    as [t err before q after cause _ _ _ _ _ _
       |t before d after _ _ _ _ _ _ _ _
       |t _ _ _ _ _ _
       |t Hpass Hex _ Ha Hm];
    cbn [outcome trace fst snd]; intros Hres Heff; try done.
  rewrite Ha, Hm, Heff. cbn [app]. repeat split.
  - destruct (Hex eq_refl) as (q & Hq & Hfq & _). intros Hnil.
    assert (q ∈ filter (fullyMatchesb m ctx r) policies) as Hin.
    { apply list_elem_of_filter. by rewrite fullyMatchesb_spec. }
    rewrite Hnil in Hin. by apply elem_of_nil in Hin.
  - apply Forall_forall. intros p [Hfp Hp]%list_elem_of_filter.
    apply fullyMatchesb_spec in Hfp. rewrite Forall_forall in Hpass.
    destruct (Hpass p Hp) as [_ Hnd]. destruct (AllowAccess p); [done|].
    by destruct Hnd.
Qed.

(** ** [DoPoliciesAllow]: a deny ends the run *)

Lemma fullyMatchesb_false m ctx r p :
  ¬ fullyMatches m ctx r p → fullyMatchesb m ctx r p = false.
Proof.
  intros Hnm. destruct (fullyMatchesb m ctx r p) eqn:Hb; [|done].
  destruct Hnm. apply fullyMatchesb_spec. by rewrite Hb.
Qed.

Lemma fullyMatchesb_true m ctx r p :
  fullyMatches m ctx r p → fullyMatchesb m ctx r p = true.
Proof. intros Hfm%fullyMatchesb_spec. by apply Is_true_true. Qed.

Section PassedOverState.
Variables (l : Ladon) (m : matcher).
Hypothesis Hwired : wired l m.
Variables (ctx : context_Context) (r : Request).

(** After a stretch of policies that are all passed over, [allowed] says
    whether one of them fully matched, and [deciders] has grown by the
    fully-matching ones, in order. *)
Lemma policiesLoop_passedOver_state (before : list Policy) :
  Forall (passedOver m ctx r) before →
  ∀ allowed deciders, ∃ t, ∀ policies rest,
    policiesLoop l ctx r policies allowed deciders (before ++ rest)
    = (t ++ trace
              (policiesLoop l ctx r policies
                 (allowed || existsb (fullyMatchesb m ctx r) before)
                 (deciders ++ filter (fullyMatchesb m ctx r) before) rest),
       outcome
         (policiesLoop l ctx r policies
            (allowed || existsb (fullyMatchesb m ctx r) before)
            (deciders ++ filter (fullyMatchesb m ctx r) before) rest)).
Proof.
  induction 1 as [|p before Hp _ IH]; intros allowed deciders.
  { exists []. intros. cbn [existsb app]. rewrite filter_nil.
    rewrite orb_false_r, app_nil_r. apply M_eta. }
  assert (∀ policies,
            loopBody l ctx r policies allowed deciders p
            = loopBody l ctx r [] allowed deciders p) as Hsame.
  { intros policies.
    by apply (loopBody_policies_irrelevant _ _ Hwired). }
  destruct Hp as [Hnf Hnd].
  pose proof (loopBody_cases l m Hwired ctx r [] allowed deciders p) as HB.
  remember (loopBody l ctx r [] allowed deciders p) as body eqn:Hbody.
  destruct HB as [tp err cause Hf _ _ _ _
                 |tp _ Hnm _ _ _ _
                 |tp Hfm Heff _ _ _ _
                 |tp Hfm Heff _ _ _ _]; [done| |by destruct Hnd|].
  - (* p is skipped *)
    destruct (IH allowed deciders) as (t & Hrest).
    exists (tp ++ t). intros policies rest.
    cbn [app policiesLoop existsb].
    rewrite Hsame.
    rewrite filter_cons_False by by rewrite fullyMatchesb_spec.
    rewrite (fullyMatchesb_false _ _ _ _ Hnm). cbn [orb].
    rewrite bind_Ok, Hrest. cbn [trace outcome fst snd].
    by rewrite app_assoc.
  - (* p fully matches and allows *)
    destruct (IH true (deciders ++ [p])) as (t & Hrest).
    exists (tp ++ t). intros policies rest.
    cbn [app policiesLoop existsb].
    rewrite Hsame.
    rewrite filter_cons_True by by rewrite fullyMatchesb_spec.
    rewrite (fullyMatchesb_true _ _ _ _ Hfm), orb_true_r. cbn [orb].
    rewrite bind_Ok, Hrest. cbn [trace outcome fst snd orb].
    by rewrite app_assoc, <-(app_assoc deciders [p]).
Qed.
End PassedOverState.

(** X8: when the run reaches a fully-matching deny policy (every policy
    before it is passed over), it makes the checks of that policy, one
    rejected audit call and one [RequestDeniedBy] call with a [go]
    statement, and returns. The audit call carries the fully-matching
    policies listed before the deny policy, in order, then the deny policy.
    The policies listed after it are not checked at all and reach only the
    audit logger, as part of the candidate list. *)
Theorem deny_ends_the_run g l m ctx r (before : list Policy) d :
  ready g l m →
  Forall (passedOver m ctx r) before →
  fullyMatches m ctx r d →
  AllowAccess d = false →
  ∃ t, ∀ after,
    runOf g l ctx r (before ++ d :: after)
    = (t ++ checksInOrder m ctx r d
         ++ [EvAudit (LogRejectedAccessRequest ctx r (before ++ d :: after)
                        (filter (fullyMatchesb m ctx r) before ++ [d]));
             EvMetric GoStmt (RequestDeniedBy r d)],
       Ok (Some (WithStack ErrRequestForcefullyDenied))).
Proof.
  intros Hready Hbefore [Hpm Hch] Hdeny.
  destruct (policiesLoop_passedOver_state _ _ Hready ctx r before Hbefore
              false []) as (t & Hrun).
  exists t. intros after.
  rewrite runOf_policiesLoop, Hrun. cbn [policiesLoop app orb].
  destruct (loopBody_patterns_match _ _ Hready ctx r (before ++ d :: after)
              (existsb (fullyMatchesb m ctx r) before)
              (filter (fullyMatchesb m ctx r) before) d Hpm)
    as (n & Hn & _ & ->).
  cbn zeta. apply forallb_holds_conditionsHold in Hch.
  rewrite Hch, Hdeny, (Hn Hch). cbn [negb]. rewrite bind_Ok.
  cbn [trace outcome fst snd ret]. unfold checksInOrder.
  destruct Hpm as (-> & -> & ->). rewrite Hdeny, app_nil_r.
  by rewrite <-!app_assoc.
Qed.

(** ** [passesConditions]: the first condition that fails *)

Lemma rangeConditions_stops ctx r pre kc post :
  forallb (holds ctx r) pre = true →
  holds ctx r kc = false →
  rangeConditions ctx r (pre ++ kc :: post)
  = (fulfillsEvent ctx r <$> (pre ++ [kc]), Ok false).
Proof.
  intros Hpre Hkc. induction pre as [|[key c] pre IH].
  - destruct kc as [key c]. cbn [app rangeConditions].
    change (Fulfills c ctx (Context r !!! key) r)
      with (holds ctx r (key, c)).
    unfold emit, ret. rewrite bind_Ok, Hkc. cbn.
    unfold fulfillsEvent. by rewrite Hkc.
  - cbn [forallb] in Hpre. apply andb_prop in Hpre as [Hhd Hpre].
    cbn [app rangeConditions].
    change (Fulfills c ctx (Context r !!! key) r)
      with (holds ctx r (key, c)).
    unfold emit. rewrite bind_Ok, Hhd, (IH Hpre).
    cbn [negb trace outcome fst snd app fmap list_fmap].
    unfold fulfillsEvent at 2. by rewrite Hhd.
Qed.

(** X12: [passesConditions] stops at the first condition that is not
    fulfilled: it evaluates the entries visited before it and that one, in
    the order of the visit, returns false, and never evaluates an entry
    visited after it. *)
Theorem passesConditions_stops_at_first_failure ctx p r pre kc post :
  GetConditions p = pre ++ kc :: post →
  forallb (holds ctx r) pre = true →
  holds ctx r kc = false →
  passesConditions ctx p r
  = (fulfillsEvent ctx r <$> (pre ++ [kc]), Ok false).
Proof.
  intros Hcs Hpre Hkc. unfold passesConditions. rewrite Hcs.
  by apply rangeConditions_stops.
Qed.

(** X15: when every condition of the policy is fulfilled,
    [passesConditions] evaluates each entry once, in the order of the
    visit, and returns true; for a policy without conditions it returns
    true without any call. *)
Theorem passesConditions_all_fulfilled ctx p r :
  forallb (holds ctx r) (GetConditions p) = true →
  passesConditions ctx p r
  = (fulfillsEvent ctx r <$> GetConditions p, Ok true).
Proof.
  intros Hall. unfold passesConditions.
  destruct (rangeConditions_spec ctx r (GetConditions p))
    as (n & -> & Hn & _).
  by rewrite (Hn Hall), Hall.
Qed.

(** ** [DoPoliciesAllow]: calls to the matcher *)

Lemma matcherCalls_app t1 t2 :
  matcherCalls (t1 ++ t2) = matcherCalls t1 ++ matcherCalls t2.
Proof. apply omap_app. Qed.

Lemma matcherCalls_fulfills ctx r (cs : list (string * Condition)) :
  matcherCalls (fulfillsEvent ctx r <$> cs) = [].
Proof. by induction cs. Qed.

Section MatcherCalls.
Variables (l : Ladon) (m : matcher).
Hypothesis Hwired : wired l m.
Variables (ctx : context_Context) (r : Request) (policies : Policies).

(** One pass calls [Matches] one to three times, on its policy. *)
Lemma loopBody_matcherCalls allowed deciders p :
  ∃ k, 1 ≤ k ≤ 3
    ∧ matcherCalls (trace (loopBody l ctx r policies allowed deciders p))
      = replicate k p.
Proof.
  destruct (m p (GetActions p) (Action r)) as [ab [ae|]] eqn:Ha.
  { rewrite (loopBody_action_error _ _ Hwired _ _ _ _ _ _ _ _ Ha).
    exists 1. split; [lia|done]. }
  destruct ab; cycle 1.
  { rewrite (loopBody_action_nomatch _ _ Hwired _ _ _ _ _ _ Ha).
    exists 1. split; [lia|done]. }
  destruct (m p (GetSubjects p) (Subject r)) as [sb [se|]] eqn:Hs.
  { rewrite (loopBody_subject_error _ _ Hwired _ _ _ _ _ _ _ _ Ha Hs).
    exists 2. split; [lia|done]. }
  destruct sb; cycle 1.
  { rewrite (loopBody_subject_nomatch _ _ Hwired _ _ _ _ _ _ Ha Hs).
    exists 2. split; [lia|done]. }
  destruct (m p (GetResources p) (Resource r)) as [rb [re|]] eqn:Hr.
  { rewrite (loopBody_resource_error _ _ Hwired _ _ _ _ _ _ _ _ Ha Hs Hr).
    exists 3. split; [lia|done]. }
  destruct rb; cycle 1.
  { rewrite (loopBody_resource_nomatch _ _ Hwired _ _ _ _ _ _ Ha Hs Hr).
    exists 3. split; [lia|done]. }
  assert (patternsMatch m r p) as Hpm by done.
  destruct (loopBody_patterns_match _ _ Hwired ctx r policies allowed
              deciders p Hpm) as (n & _ & _ & ->).
  cbn zeta. exists 3. split; [lia|].
  destruct (forallb (holds ctx r) (GetConditions p)), (AllowAccess p);
    cbn [negb trace fst];
    rewrite !matcherCalls_app, matcherCalls_fulfills; done.
Qed.

Lemma policiesLoop_matcherCalls todo : ∀ allowed deciders,
  length (matcherCalls
            (trace (policiesLoop l ctx r policies allowed deciders todo)))
  ≤ 3 * length todo
  ∧ Forall (λ p, p ∈ todo)
      (matcherCalls
         (trace (policiesLoop l ctx r policies allowed deciders todo))).
Proof.
  induction todo as [|p todo IH]; intros allowed deciders.
  { cbn [policiesLoop]. destruct allowed.
    - rewrite (afterLoop_granted _ _ Hwired). by split; [cbn; lia|].
    - rewrite (afterLoop_denied _ _ Hwired). by split; [cbn; lia|]. }
  cbn [policiesLoop].
  destruct (loopBody_matcherCalls allowed deciders p) as (k & Hk & Hcalls).
  destruct (loopBody l ctx r policies allowed deciders p) as [tp [fl|]].
  - cbn [trace fst] in Hcalls. rewrite bind_Ok. cbn [trace fst].
    rewrite matcherCalls_app, Hcalls, length_app, length_replicate.
    destruct fl as [allowed' deciders'|err].
    + destruct (IH allowed' deciders') as [Hlen Hall]. split.
      * cbn [length]. lia.
      * apply Forall_app. split.
        { apply Forall_replicate, list_elem_of_here. }
        eapply Forall_impl; [exact Hall|].
        intros q Hq. by apply list_elem_of_further.
    + cbn. split; [lia|]. rewrite app_nil_r.
      apply Forall_replicate, list_elem_of_here.
  - cbn [trace fst] in Hcalls. rewrite bind_Panic. cbn [trace fst].
    rewrite Hcalls, length_replicate. split; [cbn [length]; lia|].
    apply Forall_replicate, list_elem_of_here.
Qed.
End MatcherCalls.

(** The calls to the matcher, policy by policy: [ks] counts the calls on
    each policy visited. *)
Lemma policiesLoop_matcherCalls_per_policy l m (Hwired : wired l m)
    ctx r policies (todo : list Policy) : ∀ allowed deciders,
  ∃ ks : list nat,
    length ks ≤ length todo
    ∧ Forall (λ k, 1 ≤ k ≤ 3) ks
    ∧ matcherCalls
        (trace (policiesLoop l ctx r policies allowed deciders todo))
      = concat (zip_with replicate ks todo).
Proof.
  induction todo as [|p todo IH]; intros allowed deciders.
  { exists []. cbn [policiesLoop]. destruct allowed.
    - by rewrite (afterLoop_granted _ _ Hwired).
    - by rewrite (afterLoop_denied _ _ Hwired). }
  cbn [policiesLoop].
  destruct (loopBody_matcherCalls l m Hwired ctx r policies allowed deciders
              p) as (k & Hk & Hcalls).
  destruct (loopBody l ctx r policies allowed deciders p) as [tp [fl|]];
    cbn [trace fst] in Hcalls.
  - rewrite bind_Ok. cbn [trace fst]. rewrite matcherCalls_app, Hcalls.
    destruct fl as [allowed' deciders'|err].
    + destruct (IH allowed' deciders') as (ks & Hlen & Hks & ->).
      exists (k :: ks). cbn [length zip_with concat].
      split; [lia|]. split; [by constructor|done].
    + exists [k]. cbn [length zip_with concat ret trace fst matcherCalls].
      split; [lia|]. split; [by apply Forall_singleton|].
      destruct todo; by rewrite ?app_nil_r.
  - rewrite bind_Panic. cbn [trace fst]. rewrite Hcalls.
    exists [k]. cbn [length zip_with concat].
    split; [lia|]. split; [by apply Forall_singleton|].
    destruct todo; by rewrite ?app_nil_r.
Qed.

(** X13: [DoPoliciesAllow] calls the matcher on the candidates in the order
    of the list, one to three times on each candidate it visits and not at
    all on the others: the calls are those of the first candidates, each
    repeated between one and three times. So there are at most three calls
    per candidate policy, and all are on candidate policies. *)
Theorem matcher_called_at_most_thrice_per_policy g l m ctx r policies :
  ready g l m →
  length (matcherCalls (trace (runOf g l ctx r policies)))
  ≤ 3 * length policies
  ∧ Forall (λ p, p ∈ policies)
      (matcherCalls (trace (runOf g l ctx r policies)))
  ∧ ∃ ks : list nat,
      length ks ≤ length policies
      ∧ Forall (λ k, 1 ≤ k ≤ 3) ks
      ∧ matcherCalls (trace (runOf g l ctx r policies))
        = concat (zip_with replicate ks policies).
Proof.
  intros Hready. rewrite runOf_policiesLoop.
  destruct (policiesLoop_matcherCalls _ _ Hready ctx r policies policies
              false []) as [Hlen Hall].
  split; [done|]. split; [done|].
  by apply (policiesLoop_matcherCalls_per_policy _ _ Hready).
Qed.

(** * Conditions and the order of the checks, on the whole run *)

Section RunChecks.
Variables (l : Ladon) (m : matcher).
Hypothesis Hwired : wired l m.
Variables (ctx : context_Context) (r : Request) (policies : Policies).

Lemma policiesLoop_ordered todo : ∀ allowed deciders,
  ∃ res,
    outcome (policiesLoop l ctx r policies allowed deciders todo) = Ok res
    ∧ OrderedChecks m ctx r allowed todo
        (checks (trace (policiesLoop l ctx r policies allowed deciders todo)))
        res.
Proof.
  induction todo as [|p todo IH]; intros allowed deciders.
  { cbn [policiesLoop]. destruct allowed.
    - rewrite (afterLoop_granted _ _ Hwired). exists None.
      split; [done|]. apply (OC_exhausted _ _ _ true).
    - rewrite (afterLoop_denied _ _ Hwired).
      exists (Some (WithStack ErrRequestDenied)).
      split; [done|]. apply (OC_exhausted _ _ _ false). }
  cbn [policiesLoop].
  pose proof (loopBody_checks_in_order l m ctx r policies allowed deciders p
                Hwired) as (before & lastCheck & Hchecks & Hpre & Hpassed
                            & Hdec).
  destruct (loopBody l ctx r policies allowed deciders p) as [tp o].
  cbn [trace outcome fst snd] in Hchecks, Hdec.
  destruct lastCheck as [ctx0 r0
                        |p0 hay needle [[|] [err|]]
                        |key c v r0 [|]
                        |p0 [|]
                        |c
                        |d c]; cbn in Hdec; try done.
  - (* Matches failed, with true *)
    destruct Hdec as [-> | ->]; rewrite bind_Ok; cbn [trace outcome fst snd];
      rewrite checks_app, Hchecks, app_nil_r; eexists; (split; [done|]);
      eapply OC_fatal; eauto.
  - (* Matches failed, with false *)
    destruct Hdec as [-> | ->]; rewrite bind_Ok; cbn [trace outcome fst snd];
      rewrite checks_app, Hchecks, app_nil_r; eexists; (split; [done|]);
      eapply OC_fatal; eauto.
  - (* the pattern set does not match *)
    subst o. destruct (IH allowed deciders) as (res & Hout & Hoc).
    rewrite bind_Ok. cbn [trace outcome fst snd]. exists res.
    split; [done|]. rewrite checks_app, Hchecks. by apply OC_goes_on.
  - (* a condition is not fulfilled *)
    subst o. destruct (IH allowed deciders) as (res & Hout & Hoc).
    rewrite bind_Ok. cbn [trace outcome fst snd]. exists res.
    split; [done|]. rewrite checks_app, Hchecks. by apply OC_goes_on.
  - (* the effect is allow *)
    subst o. destruct (IH true (deciders ++ [p])) as (res & Hout & Hoc).
    rewrite bind_Ok. cbn [trace outcome fst snd]. exists res.
    split; [done|]. rewrite checks_app, Hchecks. by apply OC_goes_on.
  - (* the effect is deny *)
    subst o. rewrite bind_Ok. cbn [trace outcome fst snd].
    rewrite checks_app, Hchecks, app_nil_r. eexists. split; [done|].
    by apply OC_denied.
Qed.






End RunChecks.


(** C7: in every run of [DoPoliciesAllow] the checks are made policy by
    policy in the order of the list, and for each policy in the order
    action, subject, resource, conditions, effect: the checks made on a
    policy are an initial stretch of that sequence and every one but the
    last passed. A pattern set that does not match or a condition that is
    not fulfilled sends the run to the next policy with no error and
    [allowed] unchanged; a failed [Matches] at any of the three steps ends
    the run, which returns the error; the effect is read last and either
    ends the run with [ErrRequestForcefullyDenied] or sets [allowed]. *)
Theorem run_checks_in_source_order g l m ctx r policies :
  ready g l m →
  ∃ res,
    outcome (runOf g l ctx r policies) = Ok res
    ∧ OrderedChecks m ctx r false policies
        (checks (trace (runOf g l ctx r policies))) res.
Proof.
  intros Hready. rewrite runOf_policiesLoop.
  by apply (policiesLoop_ordered _ _ Hready).
Qed.

(** * The properties on the sample data *)

Lemma sample_ready : ready sampleGlobals emptyLadon sampleMatcher.
Proof. repeat split; by eexists. Qed.

Lemma sampleLadon_wired : wired sampleLadon sampleMatcher.
Proof. repeat split; by eexists. Qed.

(** Decides [matchFails] on sample data, where the matcher computes. *)
Ltac sample_never_fails :=
  unfold matchFails; cbn;
  intros [[? ?]|[[_ [? ?]]|(_ & _ & [? ?])]]; done.

Lemma denyAlice_fullyMatches :
  fullyMatches sampleMatcher context_Background aliceReadsDoc1 denyAlice.
Proof. split; [done|]. by intros key c ?%elem_of_nil. Qed.

Lemma allowAlice_never_fails :
  ¬ matchFails sampleMatcher aliceReadsDoc1 allowAlice.
Proof. sample_never_fails. Qed.

Lemma allowBob_skipped :
  skipped sampleMatcher context_Background aliceReadsDoc1 allowBob.
Proof.
  split; [sample_never_fails|]. intros [(_ & Hs & _) _]. discriminate Hs.
Qed.

Lemma allowAliceInternal_patternsMatch :
  patternsMatch sampleMatcher aliceReadsDoc1 allowAliceInternal.
Proof. done. Qed.

Lemma allowAliceInternal_skipped :
  skipped sampleMatcher context_Background aliceReadsDoc1 allowAliceInternal.
Proof.
  split; [sample_never_fails|]. intros [_ Hc].
  specialize (Hc "ip" internalIP). cbn in Hc.
  assert (false = true) as Habs; [|done].
  apply Hc, list_elem_of_further, list_elem_of_here.
Qed.

(** The end-to-end examples of the spec (section 8). *)
Example example_allowed :
  runOf sampleGlobals emptyLadon context_Background aliceReadsDoc1
    [allowAlice]
  = ([EvMatches allowAlice ["read"] "read" (true, None);
      EvMatches allowAlice ["alice"] "alice" (true, None);
      EvMatches allowAlice ["doc1"] "doc1" (true, None);
      EvAllowAccess allowAlice true;
      EvAudit (LogGrantedAccessRequest context_Background aliceReadsDoc1
                 [allowAlice] [allowAlice]);
      EvMetric InPlace (RequestAllowedBy aliceReadsDoc1 [allowAlice])],
     Ok None).
Proof. reflexivity. Qed.

Example example_deny_wins_in_both_orders :
  outcome (runOf sampleGlobals emptyLadon context_Background aliceReadsDoc1
             [denyAlice; allowAlice])
  = Ok (Some (WithStack ErrRequestForcefullyDenied))
  ∧ outcome (runOf sampleGlobals emptyLadon context_Background
               aliceReadsDoc1 [allowAlice; denyAlice])
    = Ok (Some (WithStack ErrRequestForcefullyDenied)).
Proof. split; reflexivity. Qed.

Example example_no_policy :
  runOf sampleGlobals emptyLadon context_Background aliceReadsDoc1 []
  = ([EvMetric GoStmt (RequestNoMatch aliceReadsDoc1);
      EvAudit (LogRejectedAccessRequest context_Background aliceReadsDoc1
                 [] [])],
     Ok (Some (WithStack ErrRequestDenied))).
Proof. reflexivity. Qed.

Example example_subject_mismatch :
  outcome (runOf sampleGlobals emptyLadon context_Background aliceReadsDoc1
             [allowBob])
  = Ok (Some (WithStack ErrRequestDenied)).
Proof. reflexivity. Qed.

Example example_condition_fails :
  outcome (runOf sampleGlobals emptyLadon context_Background aliceReadsDoc1
             [allowAliceInternal])
  = Ok (Some (WithStack ErrRequestDenied)).
Proof. reflexivity. Qed.

(** [IsAllowed] on an engine without a manager panics; with a failing
    manager it reports the error with a [go] statement and returns it. *)
Example example_IsAllowed_manager_error :
  (IsAllowed sampleGlobals
     {| Manager := Some (λ _ _, ([], Some (ErrOther "store is down")));
        Matcher := None; AuditLogger := None; Metric := None |}
     context_Background aliceReadsDoc1).2
  = ([EvFindRequestCandidates context_Background aliceReadsDoc1;
      EvMetric GoStmt
        (RequestProcessingError aliceReadsDoc1 None
           (ErrOther "store is down"))],
     Ok (Some (ErrOther "store is down"))).
Proof. reflexivity. Qed.

(** C1, on the sample data: a deny between two allows. *)
Lemma deny_overrides_witness :
  Forall (λ p, ¬ matchFails sampleMatcher aliceReadsDoc1 p) [allowAlice]
  ∧ outcome (runOf sampleGlobals emptyLadon context_Background
               aliceReadsDoc1 ([allowAlice] ++ denyAlice :: [allowAlice]))
    = Ok (Some (WithStack ErrRequestForcefullyDenied)).
Proof.
  assert (Forall (λ p, ¬ matchFails sampleMatcher aliceReadsDoc1 p)
            [allowAlice]) as Hbefore.
  { constructor; [exact allowAlice_never_fails|constructor]. }
  split; [exact Hbefore|].
  exact (proj2 (deny_overrides sampleGlobals emptyLadon sampleMatcher
                  context_Background aliceReadsDoc1 [allowAlice] denyAlice
                  [allowAlice] sample_ready denyAlice_fullyMatches eq_refl)
           Hbefore).
Defined.

(** C1 as stated fails: a policy whose action patterns are malformed,
    listed before a fully-matching deny policy, makes [DoPoliciesAllow]
    return the matcher's error, not [ErrRequestForcefullyDenied]. *)
Lemma deny_overrides_counterexample :
  ready sampleGlobals emptyLadon sampleMatcher
  ∧ fullyMatches sampleMatcher context_Background aliceReadsDoc1 denyAlice
  ∧ AllowAccess denyAlice = false
  ∧ outcome (runOf sampleGlobals emptyLadon context_Background
               aliceReadsDoc1 [badActions; denyAlice])
    = Ok (Some (WithStack (ErrOther "malformed pattern")))
  ∧ WithStack (ErrOther "malformed pattern")
    ≠ WithStack ErrRequestForcefullyDenied.
Proof.
  split; [exact sample_ready|]. split; [exact denyAlice_fullyMatches|].
  repeat split. discriminate.
Qed.

(** C2, on the sample data. *)
Lemma audit_once_unless_matcher_failed_witness :
  ∃ t res,
    runOf sampleGlobals emptyLadon context_Background aliceReadsDoc1
      [allowAlice; denyAlice] = (t, Ok res)
    ∧ (matcherErred t = true → is_Some res ∧ auditCalls t = [])
    ∧ (matcherErred t = false →
       auditCalls t
       = [auditFor res context_Background aliceReadsDoc1
            [allowAlice; denyAlice] (effectChecked t)]).
Proof.
  exact (audit_once_unless_matcher_failed sampleGlobals emptyLadon
           sampleMatcher context_Background aliceReadsDoc1
           [allowAlice; denyAlice] sample_ready).
Defined.

(** C2 as stated fails: a run that ends on a matcher error makes no
    audit-logger call. *)
Lemma audit_once_counterexample :
  ready sampleGlobals emptyLadon sampleMatcher
  ∧ outcome (runOf sampleGlobals emptyLadon context_Background
               aliceReadsDoc1 [badActions])
    = Ok (Some (WithStack (ErrOther "malformed pattern")))
  ∧ length (auditCalls (trace (runOf sampleGlobals emptyLadon
                                 context_Background aliceReadsDoc1
                                 [badActions]))) = 0.
Proof. split; [exact sample_ready|]. by split. Qed.

(** C4, on the sample data: the subject patterns of the second policy are
    malformed; the first policy is skipped. *)
Lemma subject_error_returned_unwrapped_witness :
  ∃ t, ∀ after,
    runOf sampleGlobals emptyLadon context_Background aliceReadsDoc1
      ([allowBob] ++ badSubjects :: after)
    = (t ++ [EvMatches badSubjects ["read"] "read" (true, None);
             EvMatches badSubjects ["["] "alice"
               (false, Some (ErrOther "malformed pattern"));
             EvMetric GoStmt
               (RequestProcessingError aliceReadsDoc1 (Some badSubjects)
                  (ErrOther "malformed pattern"))],
       Ok (Some (ErrOther "malformed pattern"))).
Proof.
  apply (subject_error_returned_unwrapped sampleGlobals emptyLadon
           sampleMatcher context_Background aliceReadsDoc1 [allowBob]
           badSubjects false (ErrOther "malformed pattern") sample_ready).
  - constructor; [|constructor].
    destruct allowBob_skipped as [Hnf Hnm]. split; [exact Hnf|].
    intros [Hfm _]. exact (Hnm Hfm).
  - reflexivity.
  - reflexivity.
Defined.

(** C5, on the sample data: a subject that does not match and a condition
    that does not hold. *)
Lemma default_deny_witness :
  ∃ t,
    runOf sampleGlobals emptyLadon context_Background aliceReadsDoc1
      [allowBob; allowAliceInternal]
    = (t, Ok (Some (WithStack ErrRequestDenied)))
    ∧ metricCalls t = [(GoStmt, RequestNoMatch aliceReadsDoc1)]
    ∧ auditCalls t
      = [LogRejectedAccessRequest context_Background aliceReadsDoc1
           [allowBob; allowAliceInternal] []].
Proof.
  apply (default_deny sampleGlobals emptyLadon sampleMatcher
           context_Background aliceReadsDoc1 [allowBob; allowAliceInternal]
           sample_ready).
  constructor; [exact allowBob_skipped|].
  constructor; [exact allowAliceInternal_skipped|constructor].
Defined.

(** C5 as stated fails: with one fully-matching deny policy no policy
    fully matches with allow effect, and [DoPoliciesAllow] returns
    [ErrRequestForcefullyDenied], not [ErrRequestDenied]. *)
Lemma default_deny_counterexample :
  ready sampleGlobals emptyLadon sampleMatcher
  ∧ Forall
      (λ p, ¬ (fullyMatches sampleMatcher context_Background aliceReadsDoc1 p
               ∧ AllowAccess p = true))
      [denyAlice]
  ∧ outcome (runOf sampleGlobals emptyLadon context_Background
               aliceReadsDoc1 [denyAlice])
    = Ok (Some (WithStack ErrRequestForcefullyDenied))
  ∧ WithStack ErrRequestForcefullyDenied ≠ WithStack ErrRequestDenied.
Proof.
  split; [exact sample_ready|]. split; [|by split].
  constructor; [|constructor]. by intros [_ ?].
Qed.

(** C8, on the sample data: one allow policy. *)
Lemma granted_metric_called_in_place_witness :
  metricCalls (trace (runOf sampleGlobals emptyLadon context_Background
                        aliceReadsDoc1 [allowAlice]))
  = [(InPlace,
      RequestAllowedBy aliceReadsDoc1
        (effectChecked (trace (runOf sampleGlobals emptyLadon
                                 context_Background aliceReadsDoc1
                                 [allowAlice]))))].
Proof.
  exact (granted_metric_called_in_place sampleGlobals emptyLadon
           sampleMatcher context_Background aliceReadsDoc1 [allowAlice]
           sample_ready eq_refl).
Defined.

(** C9, on the sample data. *)
Lemma request_denied_has_no_decider_witness :
  (∀ ctx' r' pool ds,
     LogRejectedAccessRequest ctx' r' pool ds
       ∈ auditCalls (trace (runOf sampleGlobals emptyLadon
                              context_Background aliceReadsDoc1 [allowBob])) →
     ds = [])
  ∧ (matcherErred (trace (runOf sampleGlobals emptyLadon context_Background
                            aliceReadsDoc1 [allowBob])) = false →
     auditCalls (trace (runOf sampleGlobals emptyLadon context_Background
                          aliceReadsDoc1 [allowBob]))
     = [LogRejectedAccessRequest context_Background aliceReadsDoc1
          [allowBob] []]).
Proof.
  exact (request_denied_has_no_decider sampleGlobals emptyLadon sampleMatcher
           context_Background aliceReadsDoc1 [allowBob] sample_ready
           eq_refl).
Defined.

(** C10, on the sample data: the two conditions in either order. *)
Lemma passesConditions_order_irrelevant_witness :
  outcome (passesConditions context_Background allowAliceInternal
             aliceReadsDoc1)
  = Ok (forallb
          (λ kc, Fulfills kc.2 context_Background
                   (Context aliceReadsDoc1 !!! kc.1) aliceReadsDoc1)
          (GetConditions allowAliceInternal))
  ∧ outcome (passesConditions context_Background allowAliceInternal'
               aliceReadsDoc1)
    = outcome (passesConditions context_Background allowAliceInternal
                 aliceReadsDoc1).
Proof.
  exact (passesConditions_order_irrelevant context_Background aliceReadsDoc1
           allowAliceInternal allowAliceInternal'
           (perm_swap ("ip", internalIP) ("owner", isSet) [])).
Defined.

(** * The further properties on the sample data *)

Lemma allowAlice_passedOver :
  passedOver sampleMatcher context_Background aliceReadsDoc1 allowAlice.
Proof. split; [exact allowAlice_never_fails|]. by intros [_ ?]. Qed.

Lemma denyAlice_never_fails :
  ¬ matchFails sampleMatcher aliceReadsDoc1 denyAlice.
Proof. sample_never_fails. Qed.

Lemma allowAlice_fullyMatches :
  fullyMatches sampleMatcher context_Background aliceReadsDoc1 allowAlice.
Proof. split; [done|]. by intros key c ?%elem_of_nil. Qed.

(** X1, on the sample data: an engine built with an audit logger only. *)
Lemma lazyInit_first_use_fills_only_nil_fields_witness :
  Matcher (lazyInit sampleGlobals loggingLadon).2
  = Some (default (DefaultMatcher sampleGlobals) (Matcher loggingLadon))
  ∧ AuditLogger (lazyInit sampleGlobals loggingLadon).2
    = Some (default (DefaultAuditLogger sampleGlobals)
              (AuditLogger loggingLadon))
  ∧ Metric (lazyInit sampleGlobals loggingLadon).2
    = Some (default (DefaultMetric sampleGlobals) (Metric loggingLadon))
  ∧ Manager (lazyInit sampleGlobals loggingLadon).2 = Manager loggingLadon
  ∧ lazyInitOnce (lazyInit sampleGlobals loggingLadon).1 = true.
Proof.
  exact (lazyInit_first_use_fills_only_nil_fields sampleGlobals loggingLadon
           eq_refl).
Defined.

(** X3, on the sample data. *)
Lemma IsAllowed_is_lookup_then_DoPoliciesAllow_witness :
  IsAllowed sampleGlobals managedLadon context_Background aliceReadsDoc1
  = (lazyInit sampleGlobals managedLadon,
     (EvFindRequestCandidates context_Background aliceReadsDoc1
        :: trace (runOf sampleGlobals managedLadon context_Background
                    aliceReadsDoc1 [allowAlice; denyAlice]),
      outcome (runOf sampleGlobals managedLadon context_Background
                 aliceReadsDoc1 [allowAlice; denyAlice]))).
Proof.
  exact (IsAllowed_is_lookup_then_DoPoliciesAllow sampleGlobals managedLadon
           sampleManager context_Background aliceReadsDoc1
           [allowAlice; denyAlice] eq_refl eq_refl).
Defined.

(** X4, on the sample data. *)
Lemma IsAllowed_manager_error_witness :
  (IsAllowed sampleGlobals brokenStoreLadon context_Background
     aliceReadsDoc1).2
  = ([EvFindRequestCandidates context_Background aliceReadsDoc1;
      EvMetric GoStmt
        (RequestProcessingError aliceReadsDoc1 None
           (ErrOther "store is down"))],
     Ok (Some (ErrOther "store is down"))).
Proof.
  exact (IsAllowed_manager_error sampleGlobals brokenStoreLadon brokenManager
           context_Background aliceReadsDoc1 [allowAlice]
           (ErrOther "store is down") eq_refl eq_refl
           (ex_intro _ MetricNoOp eq_refl)).
Defined.

(** X5, on the sample data. *)
Lemma IsAllowed_without_manager_panics_witness :
  (IsAllowed sampleGlobals emptyLadon context_Background aliceReadsDoc1).2
  = ([], Panic).
Proof.
  exact (IsAllowed_without_manager_panics sampleGlobals emptyLadon
           context_Background aliceReadsDoc1 eq_refl).
Defined.

(** X6, on the sample data. *)
Lemma granted_iff_witness :
  outcome (runOf sampleGlobals emptyLadon context_Background aliceReadsDoc1
             [allowBob; allowAlice]) = Ok None
  ↔ Forall (passedOver sampleMatcher context_Background aliceReadsDoc1)
      [allowBob; allowAlice]
    ∧ ∃ q, q ∈ [allowBob; allowAlice]
        ∧ fullyMatches sampleMatcher context_Background aliceReadsDoc1 q
        ∧ AllowAccess q = true.
Proof.
  exact (granted_iff sampleGlobals emptyLadon sampleMatcher
           context_Background aliceReadsDoc1 [allowBob; allowAlice]
           sample_ready).
Defined.

(** X7, on the sample data: of two allow policies one matches. *)
Lemma granted_deciders_witness :
  auditCalls (trace (runOf sampleGlobals emptyLadon context_Background
                       aliceReadsDoc1 [allowBob; allowAlice]))
  = [LogGrantedAccessRequest context_Background aliceReadsDoc1
       [allowBob; allowAlice]
       (filter (fullyMatchesb sampleMatcher context_Background
                  aliceReadsDoc1) [allowBob; allowAlice])]
  ∧ metricCalls (trace (runOf sampleGlobals emptyLadon context_Background
                          aliceReadsDoc1 [allowBob; allowAlice]))
    = [(InPlace,
        RequestAllowedBy aliceReadsDoc1
          (filter (fullyMatchesb sampleMatcher context_Background
                     aliceReadsDoc1) [allowBob; allowAlice]))]
  ∧ filter (fullyMatchesb sampleMatcher context_Background aliceReadsDoc1)
      [allowBob; allowAlice] ≠ []
  ∧ Forall (λ p, AllowAccess p = true)
      (filter (fullyMatchesb sampleMatcher context_Background
                 aliceReadsDoc1) [allowBob; allowAlice]).
Proof.
  exact (granted_deciders sampleGlobals emptyLadon sampleMatcher
           context_Background aliceReadsDoc1 [allowBob; allowAlice]
           sample_ready eq_refl).
Defined.

(** X8, on the sample data: a deny after an allow. *)
Lemma deny_ends_the_run_witness :
  ∃ t, ∀ after,
    runOf sampleGlobals emptyLadon context_Background aliceReadsDoc1
      ([allowAlice] ++ denyAlice :: after)
    = (t ++ checksInOrder sampleMatcher context_Background aliceReadsDoc1
              denyAlice
         ++ [EvAudit (LogRejectedAccessRequest context_Background
                        aliceReadsDoc1 ([allowAlice] ++ denyAlice :: after)
                        (filter (fullyMatchesb sampleMatcher
                                   context_Background aliceReadsDoc1)
                           [allowAlice] ++ [denyAlice]));
             EvMetric GoStmt (RequestDeniedBy aliceReadsDoc1 denyAlice)],
       Ok (Some (WithStack ErrRequestForcefullyDenied))).
Proof.
  apply (deny_ends_the_run sampleGlobals emptyLadon sampleMatcher
           context_Background aliceReadsDoc1 [allowAlice] denyAlice
           sample_ready).
  - constructor; [exact allowAlice_passedOver|constructor].
  - exact denyAlice_fullyMatches.
  - reflexivity.
Defined.

(** X9, on the sample data: a policy for another subject, between an allow
    and a deny. *)
Lemma skipped_policy_is_irrelevant_witness :
  outcome (runOf sampleGlobals emptyLadon context_Background aliceReadsDoc1
             ([allowAlice] ++ allowBob :: [denyAlice]))
  = outcome (runOf sampleGlobals emptyLadon context_Background
               aliceReadsDoc1 ([allowAlice] ++ [denyAlice])).
Proof.
  exact (skipped_policy_is_irrelevant sampleGlobals emptyLadon sampleMatcher
           context_Background aliceReadsDoc1 [allowAlice] allowBob
           [denyAlice] sample_ready allowBob_skipped).
Defined.

(** X10, on the sample data: an allow and a deny in either order. *)
Lemma result_ignores_order_without_matcher_failure_witness :
  outcome (runOf sampleGlobals emptyLadon context_Background aliceReadsDoc1
             [allowAlice; denyAlice])
  = outcome (runOf sampleGlobals emptyLadon context_Background
               aliceReadsDoc1 [denyAlice; allowAlice]).
Proof.
  apply (result_ignores_order_without_matcher_failure sampleGlobals
           emptyLadon sampleMatcher context_Background aliceReadsDoc1
           [denyAlice; allowAlice] [allowAlice; denyAlice] sample_ready).
  - constructor; [exact denyAlice_never_fails|].
    constructor; [exact allowAlice_never_fails|constructor].
  - exact (perm_swap allowAlice denyAlice []).
Defined.

(** X11, on the sample data. *)
Lemma one_metric_call_per_run_witness :
  ∃ t res,
    runOf sampleGlobals emptyLadon context_Background aliceReadsDoc1
      [allowAlice; denyAlice] = (t, Ok res)
    ∧ ((res = None
        ∧ metricCalls t
          = [(InPlace, RequestAllowedBy aliceReadsDoc1 (effectChecked t))])
       ∨ (res = Some (WithStack ErrRequestForcefullyDenied)
          ∧ ∃ d, d ∈ [allowAlice; denyAlice]
              ∧ fullyMatches sampleMatcher context_Background
                  aliceReadsDoc1 d
              ∧ AllowAccess d = false
              ∧ metricCalls t
                = [(GoStmt, RequestDeniedBy aliceReadsDoc1 d)])
       ∨ (res = Some (WithStack ErrRequestDenied)
          ∧ metricCalls t = [(GoStmt, RequestNoMatch aliceReadsDoc1)])
       ∨ (is_Some res
          ∧ ∃ p cause, p ∈ [allowAlice; denyAlice]
              ∧ matchFails sampleMatcher aliceReadsDoc1 p
              ∧ metricCalls t
                = [(GoStmt,
                    RequestProcessingError aliceReadsDoc1 (Some p) cause)])).
Proof.
  exact (one_metric_call_per_run sampleGlobals emptyLadon sampleMatcher
           context_Background aliceReadsDoc1 [allowAlice; denyAlice]
           sample_ready).
Defined.

(** X12, on the sample data: the request context has no owner, so the
    second condition fails and the third is never evaluated. *)
Lemma passesConditions_stops_at_first_failure_witness :
  passesConditions context_Background allowAliceOwned aliceReadsDoc1
  = (fulfillsEvent context_Background aliceReadsDoc1
       <$> ([("ip", isSet)] ++ [("owner", isSet)]),
     Ok false).
Proof.
  exact (passesConditions_stops_at_first_failure context_Background
           allowAliceOwned aliceReadsDoc1 [("ip", isSet)] ("owner", isSet)
           [("office", internalIP)] eq_refl eq_refl eq_refl).
Defined.

(** X13, on the sample data. *)
Lemma matcher_called_at_most_thrice_per_policy_witness :
  length (matcherCalls (trace (runOf sampleGlobals emptyLadon
                                 context_Background aliceReadsDoc1
                                 [allowAlice; allowBob; badSubjects])))
  ≤ 3 * length [allowAlice; allowBob; badSubjects]
  ∧ Forall (λ p, p ∈ [allowAlice; allowBob; badSubjects])
      (matcherCalls (trace (runOf sampleGlobals emptyLadon
                              context_Background aliceReadsDoc1
                              [allowAlice; allowBob; badSubjects])))
  ∧ ∃ ks : list nat,
      length ks ≤ length [allowAlice; allowBob; badSubjects]
      ∧ Forall (λ k, 1 ≤ k ≤ 3) ks
      ∧ matcherCalls (trace (runOf sampleGlobals emptyLadon
                               context_Background aliceReadsDoc1
                               [allowAlice; allowBob; badSubjects]))
        = concat (zip_with replicate ks
                    [allowAlice; allowBob; badSubjects]).
Proof.
  exact (matcher_called_at_most_thrice_per_policy sampleGlobals emptyLadon
           sampleMatcher context_Background aliceReadsDoc1
           [allowAlice; allowBob; badSubjects] sample_ready).
Defined.

(** X14, on the sample data, before and after the once has run. *)
Lemma lazyInit_keeps_configured_engine_witness :
  ((lazyInit sampleGlobals sampleLadon).2 = sampleLadon
   ∧ ready sampleGlobals sampleLadon sampleMatcher)
  ∧ ((lazyInit (lazyInit sampleGlobals emptyLadon).1 sampleLadon).2
     = sampleLadon
     ∧ ready (lazyInit sampleGlobals emptyLadon).1 sampleLadon
         sampleMatcher).
Proof.
  split.
  - exact (lazyInit_keeps_configured_engine sampleGlobals sampleLadon
             sampleMatcher (AuditLoggerNamed "stdout")
             (MetricNamed "prometheus") eq_refl eq_refl eq_refl).
  - exact (lazyInit_keeps_configured_engine
             (lazyInit sampleGlobals emptyLadon).1 sampleLadon sampleMatcher
             (AuditLoggerNamed "stdout") (MetricNamed "prometheus")
             eq_refl eq_refl eq_refl).
Defined.

(** X15, on the sample data: one condition, on a key the request has. *)
Lemma passesConditions_all_fulfilled_witness :
  passesConditions context_Background allowAliceTraced aliceReadsDoc1
  = (fulfillsEvent context_Background aliceReadsDoc1
       <$> GetConditions allowAliceTraced,
     Ok true).
Proof.
  exact (passesConditions_all_fulfilled context_Background allowAliceTraced
           aliceReadsDoc1 eq_refl).
Defined.

Lemma allowBob_passedOver :
  passedOver sampleMatcher context_Background aliceReadsDoc1 allowBob.
Proof.
  destruct allowBob_skipped as [Hnf Hnm]. split; [exact Hnf|].
  intros [Hfm _]. exact (Hnm Hfm).
Qed.

(** X16, on the sample data: malformed action patterns in the second
    policy. *)
Lemma action_error_returned_wrapped_witness :
  ∃ t, ∀ after,
    runOf sampleGlobals emptyLadon context_Background aliceReadsDoc1
      ([allowBob] ++ badActions :: after)
    = (t ++ [EvMatches badActions ["["] "read"
               (false, Some (ErrOther "malformed pattern"));
             EvMetric GoStmt
               (RequestProcessingError aliceReadsDoc1 (Some badActions)
                  (ErrOther "malformed pattern"))],
       Ok (Some (WithStack (ErrOther "malformed pattern")))).
Proof.
  apply (action_error_returned_wrapped sampleGlobals emptyLadon
           sampleMatcher context_Background aliceReadsDoc1 [allowBob]
           badActions false (ErrOther "malformed pattern") sample_ready).
  - constructor; [exact allowBob_passedOver|constructor].
  - reflexivity.
Defined.

(** X17, on the sample data: malformed resource patterns in the second
    policy. *)
Lemma resource_error_returned_wrapped_witness :
  ∃ t, ∀ after,
    runOf sampleGlobals emptyLadon context_Background aliceReadsDoc1
      ([allowBob] ++ badResources :: after)
    = (t ++ [EvMatches badResources ["read"] "read" (true, None);
             EvMatches badResources ["alice"] "alice" (true, None);
             EvMatches badResources ["["] "doc1"
               (false, Some (ErrOther "malformed pattern"));
             EvMetric GoStmt
               (RequestProcessingError aliceReadsDoc1 (Some badResources)
                  (ErrOther "malformed pattern"))],
       Ok (Some (WithStack (ErrOther "malformed pattern")))).
Proof.
  apply (resource_error_returned_wrapped sampleGlobals emptyLadon
           sampleMatcher context_Background aliceReadsDoc1 [allowBob]
           badResources false (ErrOther "malformed pattern") sample_ready).
  - constructor; [exact allowBob_passedOver|constructor].
  - reflexivity.
  - reflexivity.
  - reflexivity.
Defined.

(** * Conditions and the order of the checks, on the sample data *)





(** C7, on the sample data: a subject that does not match, a condition that
    is not fulfilled, an allow, a deny, and a policy that is never
    visited. *)
Lemma run_checks_in_source_order_witness :
  ∃ res,
    outcome (runOf sampleGlobals emptyLadon context_Background
               aliceReadsDoc1
               [allowBob; allowAliceOwned; allowAlice; denyAlice;
                allowAlice])
    = Ok res
    ∧ OrderedChecks sampleMatcher context_Background aliceReadsDoc1 false
        [allowBob; allowAliceOwned; allowAlice; denyAlice; allowAlice]
        (checks (trace (runOf sampleGlobals emptyLadon context_Background
                          aliceReadsDoc1
                          [allowBob; allowAliceOwned; allowAlice; denyAlice;
                           allowAlice])))
        res.
Proof.
  exact (run_checks_in_source_order sampleGlobals emptyLadon sampleMatcher
           context_Background aliceReadsDoc1
           [allowBob; allowAliceOwned; allowAlice; denyAlice; allowAlice]
           sample_ready).
Defined.
